(** * fetch_genesis_data.py: fetching, merging and saving two Genesis tables

    A shallow embedding of [src/fetch_genesis_data.py].  The script calls
    three external collaborators: the [pystatis] client (configuration and
    table download), [pandas] (data frames) and the operating system
    (environment variables, files, console).  The script's own functions are
    embedded as programs of a small state-and-exception monad; the
    collaborators are embedded by what they do to values, and whatever the
    script cannot determine about them (what the provider answers, whether a
    path can be written, which order an unstable sort gives to equal keys,
    how a number is rendered, whether the CSV writer quotes a carriage
    return) is left to an explicit environment. *)

From Stdlib Require Import Ascii String ZArith Sorted Permutation Lia.
From stdpp Require Import base option list gmap strings fin_maps sorting pretty.

Open Scope string_scope.
Open Scope Z_scope.
Open Scope nat_scope.
Open Scope list_scope.

#[local] Arguments String.append !s1 s2 : simpl nomatch.

(** ** Values and data frames *)

(** A cell of a data frame: a missing value ([NaN]/[None]), a number or a
    string.  Numbers are kept by value. *)
Inductive cell : Type :=
  | NaN
  | Num (z : Z)
  | Str (s : string).

#[global] Instance cell_eq_dec : EqDecision cell.
Proof. solve_decision. Defined.

#[global] Instance cell_inhabited : Inhabited cell := populate NaN.

Definition isna (c : cell) : bool :=
  match c with NaN => true | _ => false end.

Definition is_num (c : cell) : bool :=
  match c with Num _ => true | _ => false end.

Definition is_str (c : cell) : bool :=
  match c with Str _ => true | _ => false end.

Abbreviation row := (list cell).

(** A [pandas.DataFrame] with string column labels: the labels in order and
    the rows in order, each row holding one cell per label.  The row index
    is not kept: [concat] is called with [ignore_index=True] and [to_csv]
    with [index=False], so no index label reaches the output. *)
Record DataFrame : Type := mkDataFrame {
  columns : list string;
  rows : list row
}.

#[global] Instance DataFrame_eq_dec : EqDecision DataFrame.
Proof. solve_decision. Defined.

(** [len(df)] *)
Definition len (df : DataFrame) : nat := length (rows df).

(** Frames as pandas hands them out: one cell per label in every row, and
    (as in every table of the provider) no label used twice. *)
Definition wf (df : DataFrame) : Prop :=
  NoDup (columns df) /\ Forall (fun r => length r = length (columns df)) (rows df).

Definition wfb (df : DataFrame) : bool :=
  bool_decide (NoDup (columns df))
  && forallb (fun r => Nat.eqb (length r) (length (columns df))) (rows df).

(** [label in df.columns] *)
Definition has_column (label : string) (df : DataFrame) : bool :=
  bool_decide (label ∈ columns df).

(** [df.columns.get_loc(label)] *)
Fixpoint get_loc (label : string) (labels : list string) : option nat :=
  match labels with
  | [] => None
  | l :: ls => if decide (l = label) then Some 0 else S <$> get_loc label ls
  end.

(** The cell of row [r] under [label], [NaN] where the frame has no such
    column. *)
Definition cell_at (labels : list string) (label : string) (r : row) : cell :=
  match get_loc label labels with
  | Some j => default NaN (r !! j)
  | None => NaN
  end.

(** [df[label]] as the list of its values. *)
Definition column (label : string) (df : DataFrame) : list cell :=
  map (cell_at (columns df) label) (rows df).

(** [df[label] = v] for a scalar [v]: every cell of an existing column
    [label] is overwritten, otherwise a new last column is added. *)
Definition setitem (label : string) (v : cell) (df : DataFrame) : DataFrame :=
  if has_column label df then
    {| columns := columns df;
       rows := map (fun r =>
                 zip_with (fun l c => if decide (l = label) then v else c)
                          (columns df) r) (rows df) |}
  else
    {| columns := columns df ++ [label];
       rows := map (fun r => r ++ [v]) (rows df) |}.

(** A row laid out under new labels, [NaN] for the labels it did not have. *)
Definition reindex (old new : list string) (r : row) : row :=
  map (fun l => cell_at old l r) new.

(** [pd.concat([a, b], ignore_index=True)] of two frames with distinct
    labels ([wf]): the labels of [a] followed by the labels only [b] has,
    the rows of [a] followed by the rows of [b].  Frames in which a label
    is used twice are not what this definition is for (pandas refuses to
    realign them); every property that depends on the combined frame
    assumes [wf] inputs. *)
Definition concat (a b : DataFrame) : DataFrame :=
  let labels := columns a ++ list_difference (columns b) (columns a) in
  {| columns := labels;
     rows := map (reindex (columns a) labels) (rows a)
             ++ map (reindex (columns b) labels) (rows b) |}.

(** ** Sorting *)

(** The order [sort_values] sorts by: numbers by value, strings
    lexicographically, missing values after everything else
    ([na_position='last']).  A number and a string do not compare. *)
Definition cell_leb (x y : cell) : bool :=
  match x, y with
  | _, NaN => true
  | Num a, Num b => (a <=? b)%Z
  | Str s, Str t => String.leb s t
  | _, _ => false
  end.

Definition cell_le (x y : cell) : Prop := cell_leb x y = true.

(** Keys that the sort can compare with each other: all numbers or all
    strings.  On mixed keys Python's [<] raises [TypeError]. *)
Definition comparable (ks : list cell) : bool :=
  forallb is_num ks || forallb is_str ks.

(** [numpy.argsort(kind='quicksort')], the default of [sort_values]: the
    positions of the keys in ascending order of the keys.  The sort is not
    stable, so which of two equal keys comes first is not fixed by its
    contract; only the contract is used. *)
Class Argsort : Type := {
  argsort : list cell -> list nat;
  argsort_perm : forall ks, argsort ks ≡ₚ seq 0 (length ks);
  argsort_sorted : forall ks,
    comparable ks = true ->
    Sorted cell_le (map (fun i => ks !!! i) (argsort ks))
}.

(** [rows.take(indexer)] *)
Definition take (idx : list nat) (rs : list row) : list row :=
  map (fun i => rs !!! i) idx.

(** ** Exceptions and results *)

(** A raised Python exception: its class name and its message.  These are
    the instances of [Exception], the ones an [except Exception] clause
    catches; an interrupt of the interpreter is not modelled. *)
Record exn : Type := mkExn {
  exn_class : string;
  exn_msg : string
}.

Inductive result (A : Type) : Type :=
  | Ret (a : A)
  | Raise (e : exn).

Arguments Ret {A} a.
Arguments Raise {A} e.

Definition is_ret {A : Type} (r : result A) : bool :=
  match r with Ret _ => true | Raise _ => false end.

Definition TypeError : exn :=
  mkExn "TypeError" "'<' not supported between instances of 'str' and 'int'".
Definition KeyError (label : string) : exn := mkExn "KeyError" label.
Definition ValueError (label : string) : exn :=
  mkExn "ValueError" ("The column label '" +:+ label +:+ "' is not unique.").
Definition OSError (path : string) : exn := mkExn "OSError" path.
Definition ReferenceError : exn := mkExn "ReferenceError" "no such object".

(** How many columns carry [label]. *)
Definition occurrences (label : string) (labels : list string) : nat :=
  length (List.filter (fun l => bool_decide (l = label)) labels).

(** [df.sort_values(by)] with the defaults [ascending=True],
    [kind='quicksort'], [na_position='last']: the rows whose key is present
    in the order [argsort] gives their keys, then the rows whose key is
    missing in their old order.  A label that no column or more than one
    column carries raises, and so do keys that do not compare. *)
Definition sort_values `{Argsort} (by_ : string) (df : DataFrame) : result DataFrame :=
  match get_loc by_ (columns df) with
  | None => Raise (KeyError by_)
  | Some _ =>
      if negb (Nat.eqb (occurrences by_ (columns df)) 1) then Raise (ValueError by_)
      else
        let key := cell_at (columns df) by_ in
        let present := List.filter (fun r => negb (isna (key r))) (rows df) in
        let missing := List.filter (fun r => isna (key r)) (rows df) in
        let ks := map key present in
        if comparable ks then
          Ret {| columns := columns df; rows := take (argsort ks) present ++ missing |}
        else Raise TypeError
  end.

(** [series.nunique()]: the number of distinct values that are not missing. *)
Definition nunique (vs : list cell) : nat :=
  length (remove_dups (List.filter (fun c => negb (isna c)) vs)).

(** ** Writing CSV *)

Module Csv.

Definition SEP : ascii := ";"%char.
Definition DQUOTE : ascii := "034"%char.
Definition LF : ascii := "010"%char.
Definition CR : ascii := "013"%char.

Section Writer.

(** [to_csv] writes through Python's [csv.writer] with [delimiter=';'],
    [quotechar] the double quote, [doublequote=True], [QUOTE_MINIMAL] and
    the line feed as line terminator ([os.linesep] on POSIX systems).  The
    characters that make the writer quote a field: the delimiter, the quote
    character and the characters of the line terminator, here the line
    feed.  A carriage return is another matter: the writer of CPython 3.11
    leaves it alone when it is not part of the line terminator ([a\rb] is
    written without quotes), later versions of the writer quote it
    whatever the line terminator is.  Which of the two the interpreter does
    is [quote_cr]. *)
Variable quote_cr : bool.

Definition special (c : ascii) : bool :=
  Ascii.eqb c SEP || Ascii.eqb c DQUOTE || Ascii.eqb c LF
  || (quote_cr && Ascii.eqb c CR).

Fixpoint needs_quote (s : string) : bool :=
  match s with
  | EmptyString => false
  | String c s' => special c || needs_quote s'
  end.

(** [doublequote=True]: a quote character inside a field is written twice. *)
Fixpoint escape (s : string) : string :=
  match s with
  | EmptyString => EmptyString
  | String c s' =>
      if Ascii.eqb c DQUOTE then String DQUOTE (String DQUOTE (escape s'))
      else String c (escape s')
  end.

Definition quote_field (s : string) : string :=
  if needs_quote s then String DQUOTE (escape s +:+ String DQUOTE EmptyString)
  else s.

Fixpoint join (fields : list string) : string :=
  match fields with
  | [] => EmptyString
  | [f] => quote_field f
  | f :: fs => quote_field f +:+ String SEP (join fs)
  end.

(** [writer.writerow(fields)] with the line terminator pandas passes,
    [os.linesep], here the line feed of POSIX systems; a record made of one
    empty field is written as a pair of quotes, so that it is not an empty
    line. *)
Definition writerow (fields : list string) : string :=
  match fields with
  | [EmptyString] => String DQUOTE (String DQUOTE (String LF EmptyString))
  | _ => join fields +:+ String LF EmptyString
  end.

Fixpoint writerows (records : list (list string)) : string :=
  match records with
  | [] => EmptyString
  | r :: rs => writerow r +:+ writerows rs
  end.

End Writer.

(** A field with a carriage return in it. *)
Fixpoint has_cr (s : string) : bool :=
  match s with
  | EmptyString => false
  | String c s' => Ascii.eqb c CR || has_cr s'
  end.

(** A field that reads back as it was written: the writer quotes carriage
    returns, or the field has none. *)
Definition cr_safe (quote_cr : bool) (s : string) : bool :=
  quote_cr || negb (has_cr s).

End Csv.

(** ** UTF-8 *)

(** A Python [str] is a sequence of code points.  It is held here as a
    byte string, the bytes of its UTF-8 form: that is how the literals of
    the script stand in this file, and it is what
    [to_csv(..., encoding='utf-8')] writes.  [Utf8.decode] gives the code
    points back; a byte string is text when it decodes. *)
Module Utf8.

(** The bytes that may follow the byte before them in a well-formed
    sequence. *)
Inductive range : Type :=
  | R80_BF
  | RA0_BF
  | R80_9F
  | R90_BF
  | R80_8F.

Definition in_range (r : range) (b : N) : bool :=
  match r with
  | R80_BF => (0x80 <=? b)%N && (b <=? 0xBF)%N
  | RA0_BF => (0xA0 <=? b)%N && (b <=? 0xBF)%N
  | R80_9F => (0x80 <=? b)%N && (b <=? 0x9F)%N
  | R90_BF => (0x90 <=? b)%N && (b <=? 0xBF)%N
  | R80_8F => (0x80 <=? b)%N && (b <=? 0x8F)%N
  end.

(** A character that has begun: the bits read so far, the range of its
    next byte and the number of bytes that follow that one. *)
Record pending : Type := mkPending {
  bits : N;
  next : range;
  more : nat
}.

(** The first byte of a character: a character of its own (ASCII), or the
    lead byte of a longer sequence.  The bytes C0, C1 and F5 to FF begin
    nothing, and the ranges after E0, ED, F0 and F4 leave out the overlong
    forms, the surrogates and the values above 10FFFF. *)
Definition lead (b : N) : option (N + pending) :=
  if (b <? 0x80)%N then Some (inl b)
  else if (b <? 0xC2)%N then None
  else if (b <? 0xE0)%N then Some (inr (mkPending (b - 0xC0) R80_BF 0))
  else if (b =? 0xE0)%N then Some (inr (mkPending 0 RA0_BF 1))
  else if (b =? 0xED)%N then Some (inr (mkPending 0xD R80_9F 1))
  else if (b <? 0xF0)%N then Some (inr (mkPending (b - 0xE0) R80_BF 1))
  else if (b =? 0xF0)%N then Some (inr (mkPending 0 R90_BF 2))
  else if (b <? 0xF4)%N then Some (inr (mkPending (b - 0xF0) R80_BF 2))
  else if (b =? 0xF4)%N then Some (inr (mkPending 4 R80_8F 2))
  else None.

(** The code points of a byte string, from the state [p] between two
    bytes on; [None] where the bytes are not well-formed UTF-8 (the codec
    of Python with [errors='strict']). *)
Fixpoint run (p : option pending) (s : string) : option (list N) :=
  match s with
  | EmptyString => match p with None => Some [] | Some _ => None end
  | String c s' =>
      let b := N_of_ascii c in
      match p with
      | None =>
          match lead b with
          | Some (inl cp) => cons cp <$> run None s'
          | Some (inr p') => run (Some p') s'
          | None => None
          end
      | Some p =>
          if in_range (next p) b then
            let bits' := (bits p * 64 + (b - 0x80))%N in
            match more p with
            | O => cons bits' <$> run None s'
            | S n => run (Some (mkPending bits' R80_BF n)) s'
            end
          else None
      end
  end.

Definition decode (s : string) : option (list N) := run None s.

Definition valid (s : string) : bool :=
  match decode s with Some _ => true | None => false end.

End Utf8.

(** ** The environment of a run *)

(** What the script cannot decide by itself.  Every theorem below holds for
    every environment. *)
Record Env : Type := mkEnv {
  (** [os.environ.get] *)
  environ : string -> option string;
  (** [pystatis.config]: the configuration object and its operations, each
      of which may raise *)
  cfg : Type;
  load_config : result cfg;
  cfg_set : cfg -> string -> string -> string -> result cfg;
  cfg_get : cfg -> string -> string -> result string;
  cfg_write : cfg -> string;
  DEFAULT_CONFIG_DIR : string;
  (** [Table(name=...)] followed by [get_data(startyear=..., endyear=...,
      prettify=..., language=...)]: the call raises, or leaves [table.data]
      at [None], or leaves a data frame there.  The client is taken by what
      it answers; the files it keeps for itself are not modelled (see
      [World]) *)
  genesis : string -> string -> string -> bool -> string -> result (option DataFrame);
  (** whether [open(path, 'w')] succeeds *)
  writable : string -> bool;
  (** whether the CSV writer of the interpreter quotes a carriage return
      (see [Csv.special]) *)
  csv_quotes_cr : bool;
  (** how [to_csv] renders a number, which pandas decides by the dtype of
      the column the number stands in *)
  render_number : list cell -> Z -> string;
  (** [series.min()] and [series.max()], which may raise on some columns *)
  series_min : list cell -> result cell;
  series_max : list cell -> result cell
}.

(** A field as [to_csv] writes it: a missing value is the empty string
    ([na_rep='']), a string is itself. *)
Definition render (env : Env) (col : list cell) (c : cell) : string :=
  match c with
  | NaN => EmptyString
  | Str s => s
  | Num z => render_number env col z
  end.

(** The values of the column at position [j]. *)
Definition column_at (j : nat) (df : DataFrame) : list cell :=
  map (fun r => default NaN (r !! j)) (rows df).

Definition render_row (env : Env) (df : DataFrame) (r : row) : list string :=
  imap (fun j c => render env (column_at j df) c) r.

(** The records [to_csv(..., index=False)] hands to the CSV writer: the
    labels as header, then one record per row; no index field. *)
Definition csv_records (env : Env) (df : DataFrame) : list (list string) :=
  columns df :: map (render_row env df) (rows df).

(** What [df.to_csv(path, sep=';', index=False, encoding='utf-8')] leaves
    in the file.  A [str] is held as the bytes of its UTF-8 form (see
    [Utf8]), so that writing the text with [encoding='utf-8'] writes these
    bytes as they are; the characters the writer looks for are ASCII, and a
    byte of a longer sequence never is. *)
Definition to_csv (env : Env) (df : DataFrame) : string :=
  Csv.writerows (csv_quotes_cr env) (csv_records env df).

(** ** The state of a run *)

(** A value interpolated into a printed line. *)
Inductive pyval : Type :=
  | PStr (s : string)
  | PInt (n : nat)
  | PList (l : list string)
  | PCell (c : cell)
  | PExn (e : exn).

(** What reaches the console: a [print] of a format string (kept as in the
    source, escapes and placeholders unexpanded; a printed expression that
    is not a literal is a placeholder of its own) with its interpolated
    values, or the stack trace of [traceback.print_exc()]. *)
Inductive output : Type :=
  | Print (fmt : string) (args : list pyval)
  | Traceback (e : exn).

(** References to data frame objects are positions in the heap. *)
Abbreviation ref := nat.

(** The objects, the console and the files of a run.  [files] are the
    files the script opens by name (the configuration file and the output
    file); what a collaborator keeps on disk for itself, such as the
    download cache of the client, is not part of it. *)
Record World : Type := mkWorld {
  heap : list DataFrame;
  console : list output;
  files : gmap string string
}.

Definition with_heap (h : list DataFrame) (w : World) : World :=
  {| heap := h; console := console w; files := files w |}.
Definition with_console (c : list output) (w : World) : World :=
  {| heap := heap w; console := c; files := files w |}.
Definition with_files (f : gmap string string) (w : World) : World :=
  {| heap := heap w; console := console w; files := f |}.

(** ** Programs *)

Definition M (A : Type) : Type := World -> result A * World.

Definition ret {A : Type} (a : A) : M A := fun w => (Ret a, w).

Definition bind {A B : Type} (m : M A) (k : A -> M B) : M B :=
  fun w => match m w with
           | (Ret a, w') => k a w'
           | (Raise e, w') => (Raise e, w')
           end.

(** [try: m  except Exception as e: h e] *)
Definition try_except {A : Type} (m : M A) (h : exn -> M A) : M A :=
  fun w => match m w with
           | (Ret a, w') => (Ret a, w')
           | (Raise e, w') => h e w'
           end.

Definition lift {A : Type} (r : result A) : M A := fun w => (r, w).

Declare Scope prog_scope.
Delimit Scope prog_scope with prog.
Notation "x <- c1 ;; c2" := (bind c1 (fun x => c2))
  (at level 100, c1 at next level, right associativity) : prog_scope.
Notation "c1 ;; c2" := (bind c1 (fun _ => c2))
  (at level 100, right associativity) : prog_scope.
Open Scope prog_scope.

Definition print (fmt : string) (args : list pyval) : M unit :=
  fun w => (Ret tt, with_console (console w ++ [Print fmt args]) w).

(** [traceback.print_exc()] inside the handler of [e] *)
Definition print_exc (e : exn) : M unit :=
  fun w => (Ret tt, with_console (console w ++ [Traceback e]) w).

(** A new object. *)
Definition alloc (df : DataFrame) : M ref :=
  fun w => (Ret (length (heap w)), with_heap (heap w ++ [df]) w).

Definition load (r : ref) : M DataFrame :=
  fun w => match heap w !! r with
           | Some df => (Ret df, w)
           | None => (Raise ReferenceError, w)
           end.

(** An object changed in place. *)
Definition store (r : ref) (df : DataFrame) : M unit :=
  fun w => (Ret tt, with_heap (<[r := df]> (heap w)) w).

(** [with open(path, 'w') as f: f.write(text)] *)
Definition write_file (env : Env) (path text : string) : M unit :=
  fun w => if writable env path
           then (Ret tt, with_files (<[path := text]> (files w)) w)
           else (Raise (OSError path), w).

(** *** pandas on objects *)

(** [df.copy()]: a new object with the same contents. *)
Definition copy (r : ref) : M ref :=
  df <- load r ;; alloc df.

(** [df[label] = v]: the object [r] itself changes. *)
Definition df_setitem (r : ref) (label : string) (v : cell) : M unit :=
  df <- load r ;; store r (setitem label v df).

Definition pd_concat (r1 r2 : ref) : M ref :=
  a <- load r1 ;; b <- load r2 ;; alloc (concat a b).

(** [df.sort_values(by)] returns a new object ([inplace=False]). *)
Definition df_sort_values `{Argsort} (r : ref) (by_ : string) : M ref :=
  df <- load r ;; sorted <- lift (sort_values by_ df) ;; alloc sorted.

Definition df_to_csv (env : Env) (r : ref) (path : string) : M unit :=
  df <- load r ;; write_file env path (to_csv env df).

Definition df_len (r : ref) : M nat :=
  df <- load r ;; ret (len df).

Definition df_columns (r : ref) : M (list string) :=
  df <- load r ;; ret (columns df).

Definition df_has_column (r : ref) (label : string) : M bool :=
  df <- load r ;; ret (has_column label df).

Definition df_column (r : ref) (label : string) : M (list cell) :=
  df <- load r ;; ret (column label df).

(** ** The script *)

(** Python's truth value of [os.environ.get(...)]: [None] and the empty
    string are false. *)
Definition truthy (s : option string) : bool :=
  match s with
  | Some EmptyString | None => false
  | Some _ => true
  end.

(** [s * n] *)
Fixpoint str_mul (s : string) (n : nat) : string :=
  match n with
  | O => EmptyString
  | S n' => s +:+ str_mul s n'
  end.

(** [os.path.join(dir, name)] for a relative [name]. *)
Fixpoint ends_with_slash (s : string) : bool :=
  match s with
  | EmptyString => false
  | String c EmptyString => Ascii.eqb c "/"%char
  | String _ s' => ends_with_slash s'
  end.

Definition path_join (dir name : string) : string :=
  match dir with
  | EmptyString => name
  | _ => if ends_with_slash dir then dir +:+ name else dir +:+ "/" +:+ name
  end.

Definition TAG : string := "Wohnort/Behandlungsort".
Definition JAHR : string := "Jahr".

Section Script.

Context `{Argsort} (env : Env).

Definition setup_genesis_credentials (username password : option string) : M bool :=
  try_except
    (c <- lift (load_config env) ;;
     c <- (if truthy username && truthy password then
             c <- lift (cfg_set env c "genesis" "username" (default EmptyString username)) ;;
             c <- lift (cfg_set env c "genesis" "password" (default EmptyString password)) ;;
             let config_file := path_join (DEFAULT_CONFIG_DIR env) "config.ini" in
             write_file env config_file (cfg_write env c) ;;
             print "✓ Credentials configured for Genesis API" [] ;;
             ret c
           else
             print "⚠ No credentials provided. Using existing configuration." [] ;;
             ret c) ;;
     u <- lift (cfg_get env c "genesis" "username") ;;
     if negb (truthy (Some u)) then
       print "⚠ Warning: No username configured for Genesis API" [] ;;
       print "  Please set credentials using:" [] ;;
       print "    from pystatis import config" [] ;;
       print "    config.setup_credentials()" [] ;;
       ret false
     else ret true)
    (fun e =>
       print "✗ Error setting up credentials: {e}" [PExn e] ;;
       ret false).

(** [table = Table(name=table_code); table.get_data(...)], then
    [table.data]: a reference to the frame the provider left, if any. *)
Definition table_get_data (table_code startyear endyear : string)
    (prettify : bool) (language : string) : M (option ref) :=
  data <- lift (genesis env table_code startyear endyear prettify language) ;;
  match data with
  | Some df => r <- alloc df ;; ret (Some r)
  | None => ret None
  end.

Definition fetch_table_data (table_code startyear endyear : string) : M (option ref) :=
  try_except
    (print "\n📊 Fetching data from table {table_code}..." [PStr table_code] ;;
     print "   Years: {startyear}-{endyear}" [PStr startyear; PStr endyear] ;;
     data <- table_get_data table_code startyear endyear true "de" ;;
     match data with
     | Some r =>
         n <- df_len r ;;
         print "✓ Successfully fetched {len(table.data)} rows from table {table_code}"
               [PInt n; PStr table_code] ;;
         cs <- df_columns r ;;
         print "  Columns: {table.data.columns.tolist()}" [PList cs] ;;
         ret (Some r)
     | None =>
         print "✗ No data returned from table {table_code}" [PStr table_code] ;;
         ret None
     end)
    (fun e =>
       print "✗ Error fetching data from table {table_code}: {e}" [PStr table_code; PExn e] ;;
       print_exc e ;;
       ret None).

(** The tagging step of [combine_and_save_data]: a present input is
    copied, the copy gets the tag column, and the local name is rebound to
    the copy. *)
Definition tag_input (data : option ref) (tag fmt : string) : M (option ref) :=
  match data with
  | Some r =>
      r' <- copy r ;;
      df_setitem r' TAG (Str tag) ;;
      n <- df_len r' ;;
      print fmt [PInt n] ;;
      ret (Some r')
  | None => ret None
  end.

Definition print_nunique (combined_data : ref) (label fmt : string) : M unit :=
  present <- df_has_column combined_data label ;;
  if present then
    vs <- df_column combined_data label ;;
    print fmt [PInt (nunique vs)]
  else ret tt.

(** The summary statistics at the end of [combine_and_save_data]. *)
Definition print_summary (combined_data : ref) : M unit :=
  by_year <- df_has_column combined_data JAHR ;;
  if by_year then
    print "\n📈 Data summary:" [] ;;
    years <- df_column combined_data JAHR ;;
    lo <- lift (series_min env years) ;;
    hi <- lift (series_max env years) ;;
    print "  Years: {combined_data['Jahr'].min()} - {combined_data['Jahr'].max()}"
          [PCell lo; PCell hi] ;;
    print_nunique combined_data "Bundesland"
                  "  Bundesländer: {combined_data['Bundesland'].nunique()}" ;;
    print_nunique combined_data "Geschlecht"
                  "  Geschlecht categories: {combined_data['Geschlecht'].nunique()}" ;;
    print_nunique combined_data "Altersgruppe"
                  "  Age groups: {combined_data['Altersgruppe'].nunique()}"
  else ret tt.

(** What [combine_and_save_data] does once [combined_data] is bound:
    sort, write, report. *)
Definition sort_and_save (combined_data : ref) (output_file : string) : M bool :=
  by_year <- df_has_column combined_data JAHR ;;
  combined_data <-
    (if by_year then df_sort_values combined_data JAHR
     else ret combined_data) ;;
  df_to_csv env combined_data output_file ;;
  print "✓ Combined data saved to {output_file}" [PStr output_file] ;;
  n <- df_len combined_data ;;
  print "  Total rows: {len(combined_data)}" [PInt n] ;;
  cs <- df_columns combined_data ;;
  print "  Columns: {combined_data.columns.tolist()}" [PList cs] ;;
  print_summary combined_data ;;
  ret true.

Definition combine_and_save_data (data_behandlungsort data_wohnort : option ref)
    (output_file : string) : M bool :=
  try_except
    (print "\n📝 Combining data from both tables..." [] ;;
     data_behandlungsort <-
       tag_input data_behandlungsort "nach Behandlungsort"
                 "   Behandlungsort data: {len(data_behandlungsort)} rows" ;;
     data_wohnort <-
       tag_input data_wohnort "nach Wohnort"
                 "   Wohnort data: {len(data_wohnort)} rows" ;;
     match data_behandlungsort, data_wohnort with
     | Some b, Some w =>
         combined_data <- pd_concat b w ;;
         sort_and_save combined_data output_file
     | Some b, None => sort_and_save b output_file
     | None, Some w => sort_and_save w output_file
     | None, None =>
         print "✗ No data to save" [] ;;
         ret false
     end)
    (fun e =>
       print "✗ Error combining and saving data: {e}" [PExn e] ;;
       print_exc e ;;
       ret false).

Definition banner : string := str_mul "=" 70.

Definition main : M Z :=
  print "{}" [PStr banner] ;;
  print "Genesis Destatis Data Fetcher" [] ;;
  print "ICD-10 F64: Störung der Geschlechtsidentität" [] ;;
  print "{}" [PStr banner] ;;
  let username := environ env "GENESIS_USERNAME" in
  let password := environ env "GENESIS_PASSWORD" in
  (if negb (truthy username) || negb (truthy password) then
     print "\n⚠ Credentials not found in environment variables." [] ;;
     print "  Set GENESIS_USERNAME and GENESIS_PASSWORD environment variables," [] ;;
     print "  or edit this script to include credentials directly." [] ;;
     print "\n  Alternatively, configure credentials using:" [] ;;
     print "    from pystatis import config" [] ;;
     print "    config.setup_credentials()" [] ;;
     print "" []
   else ret tt) ;;
  ok <- setup_genesis_credentials username password ;;
  (if negb ok then print "\n⚠ Continuing without credential setup..." []
   else ret tt) ;;
  print "\n{}" [PStr banner] ;;
  print "Fetching data from Genesis Destatis tables" [] ;;
  print "{}" [PStr banner] ;;
  data_behandlungsort <- fetch_table_data "23131-0011" "2005" "2024" ;;
  data_wohnort <- fetch_table_data "23131-0012" "2005" "2024" ;;
  if bool_decide (data_behandlungsort <> None) || bool_decide (data_wohnort <> None) then
    print "\n{}" [PStr banner] ;;
    print "Saving data" [] ;;
    print "{}" [PStr banner] ;;
    success <- combine_and_save_data data_behandlungsort data_wohnort "GAC_Daten_Roh.csv" ;;
    if success then
      print "\n{}" [PStr banner] ;;
      print "✓ Data fetching completed successfully!" [] ;;
      print "{}" [PStr banner] ;;
      ret 0%Z
    else
      print "\n{}" [PStr banner] ;;
      print "✗ Failed to save data" [] ;;
      print "{}" [PStr banner] ;;
      ret 1%Z
  else
    print "\n{}" [PStr banner] ;;
    print "✗ Failed to fetch data from Genesis tables" [] ;;
    print "{}" [PStr banner] ;;
    ret 1%Z.

(** [sys.exit(main())]: the exit code of the process.  An exception that
    left [main] would end the process with code 1. *)
Definition exit_code (w : World) : Z * World :=
  match main w with
  | (Ret c, w') => (c, w')
  | (Raise e, w') => (1%Z, with_console (console w' ++ [Traceback e]) w')
  end.

End Script.

(** ** Reading CSV back *)

(** The script only writes.  To state that its output can be parsed back,
    this is the reader the output is meant for: the state machine of
    Python's [csv.reader] with [delimiter=';'] and the other defaults
    ([quotechar], [doublequote=True], not strict), run over the whole
    text. *)
Module CsvReader.

Import Csv.

Inductive state : Type :=
  | START_RECORD
  | START_FIELD
  | IN_FIELD
  | IN_QUOTED_FIELD
  | QUOTE_IN_QUOTED_FIELD
  | AFTER_CR.

(** The parser between two characters: its state, the field being read
    and the fields of the record read so far. *)
Record config : Type := mkConfig {
  st : state;
  field : string;
  fields : list string
}.

Definition add_char (c : ascii) (k : config) (s : state) : config :=
  {| st := s; field := field k +:+ String c EmptyString; fields := fields k |}.

Definition save_field (k : config) : list string := fields k ++ [field k].

Definition fresh (s : state) : config :=
  {| st := s; field := EmptyString; fields := [] |}.

(** One character: the next configuration and the record it completes,
    if any. *)
Definition step_field (k : config) (c : ascii) : config * option (list string) :=
  if Ascii.eqb c LF then (fresh START_RECORD, Some (save_field k))
  else if Ascii.eqb c CR then (fresh AFTER_CR, Some (save_field k))
  else if Ascii.eqb c SEP then
    ({| st := START_FIELD; field := EmptyString; fields := save_field k |}, None)
  else if Ascii.eqb c DQUOTE then
    match st k with
    | START_FIELD => ({| st := IN_QUOTED_FIELD; field := field k; fields := fields k |}, None)
    | _ => (add_char c k IN_FIELD, None)
    end
  else (add_char c k IN_FIELD, None).

Definition step_record (k : config) (c : ascii) : config * option (list string) :=
  if Ascii.eqb c LF then (fresh START_RECORD, Some [])
  else if Ascii.eqb c CR then (fresh AFTER_CR, Some [])
  else step_field {| st := START_FIELD; field := field k; fields := fields k |} c.

Definition step (k : config) (c : ascii) : config * option (list string) :=
  match st k with
  | START_RECORD => step_record k c
  | AFTER_CR =>
      if Ascii.eqb c LF then (fresh START_RECORD, None) else step_record k c
  | START_FIELD | IN_FIELD => step_field k c
  | IN_QUOTED_FIELD =>
      if Ascii.eqb c DQUOTE then
        ({| st := QUOTE_IN_QUOTED_FIELD; field := field k; fields := fields k |}, None)
      else (add_char c k IN_QUOTED_FIELD, None)
  | QUOTE_IN_QUOTED_FIELD =>
      if Ascii.eqb c DQUOTE then (add_char c k IN_QUOTED_FIELD, None)
      else step_field k c
  end.

(** The records of a text, from configuration [k] on.  At the end of the
    text a record that was begun is completed. *)
Fixpoint run (k : config) (text : string) : list (list string) :=
  match text with
  | EmptyString =>
      match st k with
      | START_RECORD | AFTER_CR => []
      | _ => [save_field k]
      end
  | String c text' =>
      match step k c with
      | (k', Some record) => record :: run k' text'
      | (k', None) => run k' text'
      end
  end.

Definition reader (text : string) : list (list string) :=
  run (fresh START_RECORD) text.

(** What the reader does at the delimiter or the line feed that ends a
    field. *)
Definition after_field (k : config) (f : string) (t : ascii) (rest : string)
    : list (list string) :=
  if Ascii.eqb t LF then (fields k ++ [f]) :: run (fresh START_RECORD) rest
  else run {| st := START_FIELD; field := EmptyString; fields := fields k ++ [f] |} rest.

End CsvReader.

(** ** Vocabulary of the properties *)

Definition TAG_BEHANDLUNGSORT : string := "nach Behandlungsort".
Definition TAG_WOHNORT : string := "nach Wohnort".
Definition OUTPUT_FILE : string := "GAC_Daten_Roh.csv".
Definition TABLE_BEHANDLUNGSORT : string := "23131-0011".
Definition TABLE_WOHNORT : string := "23131-0012".

(** An optional reference and the frame it stands for in a world. *)
Definition holds (w : World) (o : option ref) (d : option DataFrame) : Prop :=
  match o, d with
  | Some r, Some df => heap w !! r = Some df
  | None, None => True
  | _, _ => False
  end.

Definition rows_of (d : option DataFrame) : list row :=
  match d with Some df => rows df | None => [] end.

Definition columns_of (d : option DataFrame) : list string :=
  match d with Some df => columns df | None => [] end.

Definition wf_opt (d : option DataFrame) : Prop :=
  match d with Some df => wf df | None => True end.

(** The frame [combine_and_save_data] binds to [combined_data] before it
    looks for a year column, from the contents of its two inputs. *)
Definition combined (b w : option DataFrame) : option DataFrame :=
  match b, w with
  | Some b, Some w =>
      Some (concat (setitem TAG (Str TAG_BEHANDLUNGSORT) b)
                   (setitem TAG (Str TAG_WOHNORT) w))
  | Some b, None => Some (setitem TAG (Str TAG_BEHANDLUNGSORT) b)
  | None, Some w => Some (setitem TAG (Str TAG_WOHNORT) w)
  | None, None => None
  end.

(** The year keys [sort_values] has to compare: those that are present. *)
Definition year_keys (df : DataFrame) : list cell :=
  map (cell_at (columns df) JAHR)
      (List.filter (fun r => negb (isna (cell_at (columns df) JAHR r))) (rows df)).

(** The sort is not needed, or it does not raise: one column is the year
    column and its keys compare. *)
Definition sortable (df : DataFrame) : bool :=
  negb (has_column JAHR df)
  || (Nat.eqb (occurrences JAHR (columns df)) 1 && comparable (year_keys df)).

(** The frame handed to [to_csv]: sorted by year where there is a year
    column (and the sort does not raise). *)
Definition final_frame `{Argsort} (df : DataFrame) : DataFrame :=
  if has_column JAHR df then
    match sort_values JAHR df with
    | Ret sorted => sorted
    | Raise _ => df
    end
  else df.

(** The output file gets written: the sort does not raise and the path can
    be opened for writing. *)
Definition can_save (env : Env) (output_file : string) (df : DataFrame) : bool :=
  sortable df && writable env output_file.

(** The summary statistics do not raise. *)
Definition summary_ok (env : Env) (df : DataFrame) : bool :=
  negb (has_column JAHR df)
  || (is_ret (series_min env (column JAHR df))
      && is_ret (series_max env (column JAHR df))).

(** The call [combine_and_save_data b w output_file] writes the output file:
    there is an input, and the combined frame can be saved. *)
Definition saves (env : Env) (output_file : string) (b w : option DataFrame) : bool :=
  match combined b w with
  | Some df => can_save env output_file df
  | None => false
  end.

(** The path [setup_genesis_credentials] writes the configuration to. *)
Definition config_file (env : Env) : string :=
  path_join (DEFAULT_CONFIG_DIR env) "config.ini".

(** Row [r'] is row [r] with the provenance tag [tag]: under every other
    label it holds what [r] held (a missing value where [r] had no such
    column). *)
Definition tagged (tag : string) (src dst : list string) (r r' : row) : Prop :=
  forall l, cell_at dst l r' = if decide (l = TAG) then Str tag else cell_at src l r.

(** The provider has no table to give: the call raised or left no data. *)
Definition no_data (r : result (option DataFrame)) : bool :=
  match r with
  | Ret (Some _) => false
  | _ => true
  end.

Definition fetched (r : result (option DataFrame)) : option DataFrame :=
  match r with
  | Ret (Some df) => Some df
  | _ => None
  end.

(** Two worlds with the same objects and the same files: they differ at
    most in what was printed. *)
Definition same_store (w w' : World) : Prop :=
  heap w' = heap w /\ files w' = files w.

(** The last character of a string. *)
Fixpoint last_char (s : string) : option ascii :=
  match s with
  | EmptyString => None
  | String c EmptyString => Some c
  | String _ s' => last_char s'
  end.

(** ** A sorting routine and an environment to run the script in *)

(** A total order on cells that extends [cell_leb], for an [argsort] by
    merge sort. *)
Definition cell_leb_total (x y : cell) : bool :=
  match x, y with
  | _, NaN => true
  | NaN, _ => false
  | Num a, Num b => (a <=? b)%Z
  | Num _, Str _ => true
  | Str _, Num _ => false
  | Str s, Str t => String.leb s t
  end.

(** Keys with their positions: by key, and by position among equal keys,
    so that rows with the same key keep the order they had, one of the
    orders the contract of [argsort] allows. *)
Definition key_leb (x y : cell * nat) : bool :=
  if cell_leb_total x.1 y.1 then
    if cell_leb_total y.1 x.1 then Nat.leb x.2 y.2 else true
  else false.

Definition key_le (x y : cell * nat) : Prop := key_leb x y = true.

#[global] Instance key_le_dec : RelDecision key_le.
Proof. intros x y. unfold key_le. apply _. Defined.

Definition merge_argsort (ks : list cell) : list nat :=
  (merge_sort key_le (zip ks (seq 0 (length ks)))).*2.

Definition num_values (vs : list cell) : list Z :=
  omap (fun c => match c with Num z => Some z | _ => None end) vs.

Definition str_values (vs : list cell) : list string :=
  omap (fun c => match c with Str s => Some s | _ => None end) vs.

(** [min]/[max] as pandas computes them: over the numbers of a numeric
    column, missing values skipped ([nan] when no number is left); over the
    strings of a column that holds strings only.  A column of strings with
    a missing value raises like a column that mixes strings and numbers:
    the missing value is compared as a float. *)
Definition series_reduce (pick : Z -> Z -> Z) (pick_str : string -> string -> string)
    (vs : list cell) : result cell :=
  if forallb (fun c => isna c || is_num c) vs then
    match num_values vs with
    | [] => Ret NaN
    | z :: zs => Ret (Num (foldr pick z zs))
    end
  else if forallb is_str vs then
    match str_values vs with
    | [] => Ret NaN
    | s :: ss => Ret (Str (foldr pick_str s ss))
    end
  else Raise TypeError.

Definition str_min (s t : string) : string := if String.leb s t then s else t.
Definition str_max (s t : string) : string := if String.leb s t then t else s.

Definition example_behandlungsort : DataFrame :=
  {| columns := ["Jahr"; "Bundesland"; "Wert"];
     rows := [[Num 2006; Str "Bayern"; Num 12];
              [Num 2005; Str "Berlin"; Num 7]] |}.

Definition example_wohnort : DataFrame :=
  {| columns := ["Jahr"; "Bundesland"; "Wert"];
     rows := [[Num 2005; Str "Hessen"; Num 3]] |}.

(** An environment without credentials, in which the provider answers the
    two table codes with the two example tables and every path can be
    written. *)
Definition example_env : Env :=
  {| environ := fun _ => None;
     cfg := unit;
     load_config := Ret tt;
     cfg_set := fun _ _ _ _ => Ret tt;
     cfg_get := fun _ _ _ => Ret "user@example.org";
     cfg_write := fun _ => EmptyString;
     DEFAULT_CONFIG_DIR := "/home/user/.pystatis";
     genesis := fun code _ _ _ _ =>
       if decide (code = TABLE_BEHANDLUNGSORT) then Ret (Some example_behandlungsort)
       else if decide (code = TABLE_WOHNORT) then Ret (Some example_wohnort)
       else Ret None;
     writable := fun _ => true;
     csv_quotes_cr := false;
     render_number := fun _ z => pretty z;
     series_min := series_reduce Z.min str_min;
     series_max := series_reduce Z.max str_max |}.

(** An environment with another provider. *)
Definition with_genesis (env : Env)
    (g : string -> string -> string -> bool -> string -> result (option DataFrame)) : Env :=
  {| environ := environ env;
     cfg := cfg env;
     load_config := load_config env;
     cfg_set := cfg_set env;
     cfg_get := cfg_get env;
     cfg_write := cfg_write env;
     DEFAULT_CONFIG_DIR := DEFAULT_CONFIG_DIR env;
     genesis := g;
     writable := writable env;
     csv_quotes_cr := csv_quotes_cr env;
     render_number := render_number env;
     series_min := series_min env;
     series_max := series_max env |}.

Definition Unauthorized : exn := mkExn "HTTPError" "401 Unauthorized".

(** The request for the first table fails, the second table arrives. *)
Definition example_env_one_failure : Env :=
  with_genesis example_env
    (fun code startyear endyear prettify language =>
       if decide (code = TABLE_BEHANDLUNGSORT) then Raise Unauthorized
       else genesis example_env code startyear endyear prettify language).

(** The request for the first table fails, the second leaves no data. *)
Definition example_env_no_data : Env :=
  with_genesis example_env
    (fun code _ _ _ _ =>
       if decide (code = TABLE_BEHANDLUNGSORT) then Raise Unauthorized
       else Ret None).

(** Two tables without a year column. *)
Definition example_states_behandlungsort : DataFrame :=
  {| columns := ["Bundesland"; "Wert"];
     rows := [[Str "Bayern"; Num 12]; [Str "Berlin"; Num 7]] |}.

Definition example_states_wohnort : DataFrame :=
  {| columns := ["Bundesland"; "Wert"];
     rows := [[Str "Hessen"; Num 3]] |}.

Definition empty_world : World :=
  {| heap := []; console := []; files := ∅ |}.

(** A world that already holds the two example tables. *)
Definition example_world : World :=
  {| heap := [example_behandlungsort; example_wohnort]; console := []; files := ∅ |}.

Definition example_world_states : World :=
  {| heap := [example_states_behandlungsort; example_states_wohnort];
     console := []; files := ∅ |}.

(** ** Vocabulary of the further properties *)

(** A program that leaves every file outside [paths] as it was, whatever
    the world it starts in and however it ends. *)
Definition writes_only {A : Type} (paths : list string) (m : M A) : Prop :=
  forall w path, path ∉ paths -> files (m w).2 !! path = files w !! path.

(** The example environment with credentials in the environment variables
    and a configuration that cannot be loaded. *)
Definition example_env_no_config : Env :=
  {| environ := fun name => Some "secret";
     cfg := unit;
     load_config := Raise (mkExn "FileNotFoundError" "config.ini");
     cfg_set := cfg_set example_env;
     cfg_get := cfg_get example_env;
     cfg_write := cfg_write example_env;
     DEFAULT_CONFIG_DIR := DEFAULT_CONFIG_DIR example_env;
     genesis := genesis example_env;
     writable := writable example_env;
     csv_quotes_cr := csv_quotes_cr example_env;
     render_number := render_number example_env;
     series_min := series_min example_env;
     series_max := series_max example_env |}.

(** The example environment with credentials in the environment
    variables. *)
Definition example_env_credentials : Env :=
  {| environ := fun name => Some "secret";
     cfg := list (string * string);
     load_config := Ret [];
     cfg_set := fun c section option value => Ret ((option, value) :: c);
     cfg_get := fun c section option =>
       match list_find (fun kv => kv.1 = option) c with
       | Some (_, kv) => Ret kv.2
       | None => Raise (mkExn "NoOptionError" option)
       end;
     cfg_write := fun c => String.concat ";" (map (fun kv => kv.1 +:+ "=" +:+ kv.2) c);
     DEFAULT_CONFIG_DIR := DEFAULT_CONFIG_DIR example_env;
     genesis := genesis example_env;
     writable := writable example_env;
     csv_quotes_cr := csv_quotes_cr example_env;
     render_number := render_number example_env;
     series_min := series_min example_env;
     series_max := series_max example_env |}.

(** A table with a place name that holds the separator, and a table whose
    years are missing in one row. *)
Definition example_places : DataFrame :=
  {| columns := ["Jahr"; "Ort"];
     rows := [[Num 2005; Str "Frankfurt; Main"]; [NaN; Str "Kiel"]] |}.

Definition example_world_places : World :=
  {| heap := [example_places]; console := []; files := ∅ |}.

(** A table whose years are strings, next to a table without years, and a
    table without years next to a table with years. *)
Definition example_text_years : DataFrame :=
  {| columns := ["Jahr"; "Bundesland"];
     rows := [[Str "2006"; Str "Bayern"]; [Str "2005"; Str "Berlin"]] |}.

Definition example_world_text_years : World :=
  {| heap := [example_text_years; example_states_wohnort]; console := []; files := ∅ |}.

Definition example_world_one_dated : World :=
  {| heap := [example_states_behandlungsort; example_wohnort]; console := []; files := ∅ |}.

(** A table with a place name that holds a carriage return. *)
Definition example_spa : DataFrame :=
  {| columns := ["Jahr"; "Ort"];
     rows := [[Num 2005; Str ("Bad" +:+ String Csv.CR "Ems")]] |}.

Definition example_world_spa : World :=
  {| heap := [example_spa]; console := []; files := ∅ |}.

(** * Properties *)

(** ** Strings *)

Lemma append_nil_r (s : string) : s +:+ EmptyString = s.
Proof. induction s as [|c s IH]; simpl; [reflexivity | now rewrite IH]. Qed.

Lemma append_assoc (s t u : string) : (s +:+ t) +:+ u = s +:+ (t +:+ u).
Proof. induction s as [|c s IH]; simpl; [reflexivity | now rewrite IH]. Qed.

Lemma append_snoc (s t : string) (c : ascii) :
  (s +:+ String c EmptyString) +:+ t = s +:+ String c t.
Proof. now rewrite append_assoc. Qed.

(** ** The writer and the reader *)

Module CsvFacts.

Import Csv CsvReader.

Lemma special_false (c : ascii) :
  special true c = false ->
  Ascii.eqb c SEP = false /\ Ascii.eqb c DQUOTE = false
  /\ Ascii.eqb c LF = false /\ Ascii.eqb c CR = false.
Proof.
  unfold special. intros Hc.
  repeat (apply orb_false_elim in Hc as [Hc ?]). auto.
Qed.

(** A field the writer leaves without quotes holds none of the characters
    the reader looks for, once it holds no carriage return that the writer
    passes over. *)
Lemma needs_quote_plain (q : bool) (f : string) :
  needs_quote q f = false -> cr_safe q f = true -> needs_quote true f = false.
Proof.
  unfold cr_safe. destruct q; [auto|]. simpl. intros Hq Hcr.
  apply negb_true_iff in Hcr.
  induction f as [|c f IH]; [reflexivity|].
  simpl in Hq, Hcr |- *.
  apply orb_false_elim in Hq as [Hc Hq]. apply orb_false_elim in Hcr as [Hc' Hcr].
  rewrite (IH Hq Hcr), orb_false_r.
  unfold special in Hc |- *. rewrite Hc'. simpl in Hc |- *.
  now rewrite !orb_false_r in Hc |- *.
Qed.

(** A field written without quotes is read character by character. *)
Lemma run_plain (f : string) :
  needs_quote true f = false ->
  forall k rest,
    st k = START_FIELD \/ st k = IN_FIELD ->
    exists s, (s = START_FIELD \/ s = IN_FIELD)
      /\ run k (f +:+ rest)
         = run {| st := s; field := field k +:+ f; fields := fields k |} rest.
Proof.
  induction f as [|c f IH]; intros Hq k rest Hk.
  - exists (st k). split; [assumption|].
    rewrite append_nil_r. now destruct k.
  - simpl in Hq. apply orb_false_elim in Hq as [Hc Hq].
    apply special_false in Hc as (Hsep & Hdq & Hlf & Hcr).
    destruct (IH Hq (add_char c k IN_FIELD) rest) as (s & Hs & Hrun);
      [now right|].
    exists s. split; [assumption|].
    change (String c f +:+ rest) with (String c (f +:+ rest)).
    cbn [run].
    assert (Hstep : step k c = (add_char c k IN_FIELD, None)).
    { unfold step, step_field.
      destruct Hk as [-> | ->]; now rewrite Hlf, Hcr, Hsep, Hdq. }
    rewrite Hstep, Hrun. cbn [add_char field fields].
    now rewrite append_snoc.
Qed.

(** The body of a quoted field, up to its closing quote: every character
    but the quote is taken as it is, line breaks included. *)
Lemma run_quoted (f : string) :
  forall k rest,
    st k = IN_QUOTED_FIELD ->
    run k (escape f +:+ String DQUOTE rest)
    = run {| st := QUOTE_IN_QUOTED_FIELD; field := field k +:+ f; fields := fields k |} rest.
Proof.
  induction f as [|c f IH]; intros k rest Hk.
  - cbn [escape String.append run]. unfold step. rewrite Hk.
    rewrite Ascii.eqb_refl, append_nil_r. reflexivity.
  - cbn [escape]. destruct (Ascii.eqb c DQUOTE) eqn:Hc.
    + apply Ascii.eqb_eq in Hc as ->.
      cbn [String.append run]. unfold step at 1. rewrite Hk, Ascii.eqb_refl.
      unfold step at 1. cbn [st]. rewrite Ascii.eqb_refl.
      rewrite IH by reflexivity. cbn [add_char field fields].
      now rewrite append_snoc.
    + cbn [String.append run]. unfold step at 1. rewrite Hk, Hc.
      rewrite IH by reflexivity. cbn [add_char field fields].
      now rewrite append_snoc.
Qed.

Lemma step_field_end (k : config) (t : ascii) (rest : string) :
  t = SEP \/ t = LF ->
  match step_field k t with
  | (k', Some record) => record :: run k' rest
  | (k', None) => run k' rest
  end = after_field k (field k) t rest.
Proof. intros [-> | ->]; reflexivity. Qed.

Section Writer.

Variable q : bool.

Lemma run_field (f : string) (k : config) (t : ascii) (rest : string) :
  st k = START_FIELD -> field k = EmptyString -> t = SEP \/ t = LF ->
  cr_safe q f = true ->
  run k (quote_field q f +:+ String t rest) = after_field k f t rest.
Proof.
  intros Hst Hfield Ht Hcr. unfold quote_field.
  destruct (needs_quote q f) eqn:Hq.
  - cbn [String.append run]. unfold step at 1, step_field.
    rewrite Hst. cbn [Ascii.eqb].
    change (Ascii.eqb DQUOTE LF) with false.
    change (Ascii.eqb DQUOTE CR) with false.
    change (Ascii.eqb DQUOTE SEP) with false.
    rewrite Ascii.eqb_refl. cbv iota.
    rewrite append_assoc. cbn [String.append].
    rewrite run_quoted by reflexivity.
    cbn [field fields]. rewrite Hfield. cbn [String.append].
    cbn [run]. unfold step. cbn [st].
    assert (Hne : Ascii.eqb t DQUOTE = false) by (destruct Ht as [-> | ->]; reflexivity).
    rewrite Hne.
    now rewrite (step_field_end _ t rest Ht).
  - pose proof (needs_quote_plain q f Hq Hcr) as Hplain.
    destruct (run_plain f Hplain k (String t rest)) as (s & Hs & ->); [now left|].
    rewrite Hfield. cbn [String.append run].
    assert (Hstep : forall k', st k' = s -> step k' t = step_field k' t).
    { intros k' Hk'. unfold step. rewrite Hk'. now destruct Hs as [-> | ->]. }
    rewrite Hstep by reflexivity.
    now rewrite (step_field_end _ t rest Ht).
Qed.

Lemma run_join (fs : list string) :
  fs <> [] -> Forall (fun f => cr_safe q f = true) fs ->
  forall k rest,
    st k = START_FIELD -> field k = EmptyString ->
    run k (join q fs +:+ String LF rest)
    = (fields k ++ fs) :: run (fresh START_RECORD) rest.
Proof.
  induction fs as [|f fs IH]; intros Hne Hcr k rest Hst Hfield; [congruence|].
  apply Forall_cons in Hcr as [Hf Hcr].
  destruct fs as [|g fs].
  - cbn [join]. rewrite run_field by auto. reflexivity.
  - change (join q (f :: g :: fs))
      with (quote_field q f +:+ String SEP (join q (g :: fs))).
    rewrite append_assoc. cbn [String.append].
    rewrite run_field by auto. unfold after_field.
    change (Ascii.eqb SEP LF) with false. cbv iota.
    rewrite IH by (reflexivity || congruence || assumption). cbn [fields].
    now rewrite <- app_assoc.
Qed.

(** The first character of a field that is followed by [tail], when the
    field is not empty or is quoted, does not end a line. *)
Lemma quote_field_head (f tail : string) :
  cr_safe q f = true -> (f <> EmptyString \/ tail <> EmptyString) ->
  (forall c t, tail = String c t -> Ascii.eqb c LF = false /\ Ascii.eqb c CR = false) ->
  exists c text, quote_field q f +:+ tail = String c text
                 /\ Ascii.eqb c LF = false /\ Ascii.eqb c CR = false.
Proof.
  intros Hcr Hne Htail. unfold quote_field. destruct (needs_quote q f) eqn:Hf.
  - eexists _, _. cbn [String.append]. split; [reflexivity|]. split; reflexivity.
  - destruct f as [|c f].
    + destruct tail as [|c t]; [destruct Hne; congruence|].
      exists c, t. split; [reflexivity|]. now apply (Htail c t).
    + apply (needs_quote_plain q _ Hf) in Hcr. simpl in Hcr.
      apply orb_false_elim in Hcr as [Hc _].
      apply special_false in Hc as (_ & _ & Hlf & Hcr).
      eexists _, _. cbn [String.append]. split; [reflexivity|]. now split.
Qed.

(** The first character of a record that is neither empty nor a single
    empty field does not end a line. *)
Lemma join_head (fs : list string) (rest : string) :
  fs <> [] -> fs <> [EmptyString] -> Forall (fun f => cr_safe q f = true) fs ->
  exists c text, join q fs +:+ String LF rest = String c text
                 /\ Ascii.eqb c LF = false /\ Ascii.eqb c CR = false.
Proof.
  intros Hne Hne' Hcr. destruct fs as [|f fs]; [congruence|].
  apply Forall_cons in Hcr as [Hf _].
  destruct fs as [|g fs].
  - cbn [join]. unfold quote_field. destruct (needs_quote q f) eqn:Hq.
    + eexists _, _. cbn [String.append]. split; [reflexivity|]. split; reflexivity.
    + destruct f as [|c f]; [congruence|].
      apply (needs_quote_plain q _ Hq) in Hf. simpl in Hf.
      apply orb_false_elim in Hf as [Hc _].
      apply special_false in Hc as (_ & _ & Hlf & Hcr).
      eexists _, _. cbn [String.append]. split; [reflexivity|]. now split.
  - change (join q (f :: g :: fs))
      with (quote_field q f +:+ String SEP (join q (g :: fs))).
    rewrite append_assoc. cbn [String.append].
    apply quote_field_head; [assumption | right; discriminate |].
    intros c t Heq. inversion Heq. split; reflexivity.
Qed.

Lemma run_writerow (fs : list string) (rest : string) :
  Forall (fun f => cr_safe q f = true) fs ->
  run (fresh START_RECORD) (writerow q fs +:+ rest)
  = fs :: run (fresh START_RECORD) rest.
Proof.
  intros Hcr.
  destruct (decide (fs = [])) as [-> | Hne]; [reflexivity|].
  destruct (decide (fs = [EmptyString])) as [-> | Hne']; [reflexivity|].
  assert (Hrow : writerow q fs = join q fs +:+ String LF EmptyString).
  { destruct fs as [|[|c f] [|g fs]]; congruence || reflexivity. }
  rewrite Hrow, append_assoc. cbn [String.append].
  destruct (join_head fs rest Hne Hne' Hcr) as (c & text & Heq & Hlf & Hcr').
  assert (Hstart : run (fresh START_RECORD) (String c text)
                   = run (fresh START_FIELD) (String c text)).
  { cbn [run]. unfold step at 1. cbn [st fresh]. unfold step_record.
    rewrite Hlf, Hcr'. reflexivity. }
  rewrite Heq, Hstart, <- Heq.
  now rewrite run_join.
Qed.

(** Reading back what the writer wrote gives the records that were
    written, whatever else their fields contain, when no field holds a
    carriage return that the writer passes over. *)
Lemma reader_writerows (records : list (list string)) :
  Forall (Forall (fun f => cr_safe q f = true)) records ->
  reader (writerows q records) = records.
Proof.
  unfold reader. induction records as [|r rs IH]; intros Hcr; [reflexivity|].
  apply Forall_cons in Hcr as [Hr Hcr].
  cbn [writerows]. now rewrite run_writerow, IH.
Qed.

End Writer.

(** The writer and the reader on a record with a field that holds the
    separator, on an empty line, and on a field with a carriage return: a
    writer that passes over it writes two lines. *)
Example writerow_quotes_separator :
  writerow false ["Frankfurt; Main"; "7"]
  = String DQUOTE ("Frankfurt; Main" +:+ String DQUOTE (";7" +:+ String LF EmptyString)).
Proof. reflexivity. Qed.

Example reader_quoted_separator :
  reader (writerow false ["Frankfurt; Main"; "7"]) = [["Frankfurt; Main"; "7"]].
Proof. reflexivity. Qed.

Example reader_empty_line : reader (String LF EmptyString) = [[]].
Proof. reflexivity. Qed.

Example writerow_carriage_return :
  let field := "a" +:+ String CR "b" in
  writerow false [field; "c"] = field +:+ ";c" +:+ String LF EmptyString
  /\ reader (writerow false [field; "c"]) = [["a"]; ["b"; "c"]]
  /\ reader (writerow true [field; "c"]) = [[field; "c"]].
Proof. repeat split. Qed.

End CsvFacts.


(** ** UTF-8 text stays UTF-8 text *)

Module Utf8Facts.

Import Utf8.

(** Decoding stops between two characters at the end of well-formed
    bytes, so that what follows is decoded on its own. *)
Lemma run_app (s t : string) :
  forall p l, run p s = Some l -> run p (s +:+ t) = app l <$> run None t.
Proof.
  induction s as [|c s IH]; intros p l Hs.
  - destruct p; simpl in Hs; [discriminate|]. inversion Hs. simpl.
    now destruct (run None t).
  - cbn [String.append run] in Hs |- *. destruct p as [p|].
    + destruct (in_range (next p) (N_of_ascii c)); [|discriminate].
      destruct (more p).
      * destruct (run None s) as [l0|] eqn:E; [|discriminate].
        simpl in Hs. inversion Hs. rewrite (IH None l0 E).
        now destruct (run None t).
      * now apply IH.
    + destruct (lead (N_of_ascii c)) as [[cp|p']|]; [| now apply IH | discriminate].
      destruct (run None s) as [l0|] eqn:E; [|discriminate].
      simpl in Hs. inversion Hs. rewrite (IH None l0 E).
      now destruct (run None t).
Qed.

Lemma decode_app (s t : string) (l l' : list N) :
  decode s = Some l -> decode t = Some l' -> decode (s +:+ t) = Some (l ++ l').
Proof.
  unfold decode. intros Hs Ht. now rewrite (run_app s t None l Hs), Ht.
Qed.

Lemma valid_decode (s : string) : valid s = true <-> is_Some (decode s).
Proof.
  unfold valid. destruct (decode s) as [l|]; split; intros Hs;
    eauto; solve [discriminate | now destruct Hs].
Qed.

Lemma valid_app (s t : string) :
  valid s = true -> valid t = true -> valid (s +:+ t) = true.
Proof.
  rewrite !valid_decode. intros [l Hs] [l' Ht]. rewrite (decode_app s t l l' Hs Ht). eauto.
Qed.

(** A quote is a character of its own: it never stands inside a longer
    sequence, so that writing it twice keeps the bytes well-formed. *)
Lemma run_escape (s : string) :
  forall p l, run p s = Some l -> is_Some (run p (Csv.escape s)).
Proof.
  induction s as [|c s IH]; intros p l Hs; [simpl; eauto|].
  cbn [Csv.escape]. destruct (Ascii.eqb c Csv.DQUOTE) eqn:Hc.
  - apply Ascii.eqb_eq in Hc. subst c. destruct p as [p|].
    + cbn [run] in Hs. change (N_of_ascii Csv.DQUOTE) with 34%N in Hs.
      now destruct (next p).
    + cbn [run] in Hs |- *. change (N_of_ascii Csv.DQUOTE) with 34%N in Hs |- *.
      change (lead 34) with (Some (inl 34%N : N + pending)) in Hs |- *. cbv iota in Hs |- *.
      destruct (run None s) as [l0|] eqn:E; [|discriminate].
      destruct (IH None l0 E) as [l' ->]. simpl. eauto.
  - cbn [run] in Hs |- *. destruct p as [p|].
    + destruct (in_range (next p) (N_of_ascii c)); [|discriminate].
      destruct (more p).
      * destruct (run None s) as [l0|] eqn:E; [|discriminate].
        destruct (IH None l0 E) as [l' ->]. simpl. eauto.
      * now apply (IH _ l).
    + destruct (lead (N_of_ascii c)) as [[cp|p']|]; [| now apply (IH _ l) | discriminate].
      destruct (run None s) as [l0|] eqn:E; [|discriminate].
      destruct (IH None l0 E) as [l' ->]. simpl. eauto.
Qed.

Lemma valid_escape (s : string) : valid s = true -> valid (Csv.escape s) = true.
Proof.
  rewrite !valid_decode. intros [l Hs]. exact (run_escape s None l Hs).
Qed.

Section Writer.

Variable q : bool.

Lemma valid_quote_field (f : string) :
  valid f = true -> valid (Csv.quote_field q f) = true.
Proof.
  intros Hf. unfold Csv.quote_field. destruct (Csv.needs_quote q f); [|exact Hf].
  apply (valid_app (String Csv.DQUOTE EmptyString)); [reflexivity|].
  apply valid_app; [now apply valid_escape | reflexivity].
Qed.

Lemma valid_join (fs : list string) :
  Forall (fun f => valid f = true) fs -> valid (Csv.join q fs) = true.
Proof.
  induction 1 as [|f fs Hf Hfs IH]; [reflexivity|].
  destruct fs as [|g fs]; [now apply valid_quote_field|].
  change (Csv.join q (f :: g :: fs))
    with (Csv.quote_field q f +:+ String Csv.SEP (Csv.join q (g :: fs))).
  apply valid_app; [now apply valid_quote_field|].
  now apply (valid_app (String Csv.SEP EmptyString)).
Qed.

Lemma valid_writerow (fs : list string) :
  Forall (fun f => valid f = true) fs -> valid (Csv.writerow q fs) = true.
Proof.
  intros Hfs.
  assert (Hjoin : valid (Csv.join q fs +:+ String Csv.LF EmptyString) = true)
    by (apply valid_app; [now apply valid_join | reflexivity]).
  destruct fs as [|[|c f] [|g fs]]; solve [exact Hjoin | reflexivity].
Qed.

(** What the writer writes from text is text. *)
Lemma valid_writerows (records : list (list string)) :
  Forall (Forall (fun f => valid f = true)) records ->
  valid (Csv.writerows q records) = true.
Proof.
  induction 1 as [|r rs Hr Hrs IH]; [reflexivity|].
  cbn [Csv.writerows]. apply valid_app; [now apply valid_writerow | exact IH].
Qed.

End Writer.

(** The decoder on text of the script, and on bytes that are no text: a
    byte that continues nothing, an overlong form, a surrogate. *)
Example decode_text :
  decode "Bundesländer ✓" = Some [66; 117; 110; 100; 101; 115; 108; 228; 110; 100; 101; 114;
                                   32; 10003]%N.
Proof. reflexivity. Qed.

Example decode_not_text :
  decode (String (ascii_of_N 0x80) EmptyString) = None
  /\ decode (String (ascii_of_N 0xC0) (String (ascii_of_N 0x80) EmptyString)) = None
  /\ decode (String (ascii_of_N 0xED) (String (ascii_of_N 0xA0) (String (ascii_of_N 0x80)
                                                                   EmptyString))) = None.
Proof. repeat split. Qed.

End Utf8Facts.

(** ** Data frames *)

(** The operations on small frames. *)
Example setitem_adds_column :
  setitem TAG (Str "nach Wohnort") {| columns := ["Jahr"]; rows := [[Num 2005]; [Num 2006]] |}
  = {| columns := ["Jahr"; TAG];
       rows := [[Num 2005; Str "nach Wohnort"]; [Num 2006; Str "nach Wohnort"]] |}.
Proof. reflexivity. Qed.

Example setitem_overwrites_column :
  setitem TAG (Str "nach Wohnort") {| columns := [TAG; "Jahr"]; rows := [[Str "x"; Num 2005]] |}
  = {| columns := [TAG; "Jahr"]; rows := [[Str "nach Wohnort"; Num 2005]] |}.
Proof. reflexivity. Qed.

Example concat_fills_missing :
  concat {| columns := ["Jahr"; "Wert"]; rows := [[Num 2005; Num 7]] |}
         {| columns := ["Wert"; "Ort"]; rows := [[Num 3; Str "Kiel"]] |}
  = {| columns := ["Jahr"; "Wert"; "Ort"];
       rows := [[Num 2005; Num 7; NaN]; [NaN; Num 3; Str "Kiel"]] |}.
Proof. reflexivity. Qed.

Example comparable_mixed :
  comparable [Num 2005; Str "2006"] = false.
Proof. reflexivity. Qed.

Lemma map_fmap {A B : Type} (f : A -> B) (l : list A) : map f l = f <$> l.
Proof. reflexivity. Qed.

Lemma get_loc_Some (l : string) (ls : list string) (j : nat) :
  get_loc l ls = Some j -> ls !! j = Some l.
Proof.
  revert j. induction ls as [|x ls IH]; intros j Hj; simpl in Hj; [discriminate|].
  destruct (decide (x = l)) as [-> | Hne].
  - now inversion Hj.
  - destruct (get_loc l ls) as [i|]; [|discriminate].
    inversion Hj; subst. simpl. now apply IH.
Qed.

Lemma get_loc_None (l : string) (ls : list string) :
  get_loc l ls = None <-> l ∉ ls.
Proof.
  induction ls as [|x ls IH]; simpl.
  - split; [intros _; apply not_elem_of_nil | reflexivity].
  - destruct (decide (x = l)) as [-> | Hne].
    + split; [discriminate | intros Hn; exfalso; apply Hn; left].
    + rewrite not_elem_of_cons, <- IH.
      destruct (get_loc l ls); simpl; split; try discriminate; intuition congruence.
Qed.

Lemma get_loc_elem (l : string) (ls : list string) :
  l ∈ ls -> exists j, get_loc l ls = Some j.
Proof.
  intros Hin. destruct (get_loc l ls) as [j|] eqn:E; [now exists j|].
  now apply get_loc_None in E.
Qed.

Lemma get_loc_lt (l : string) (ls : list string) (j : nat) :
  get_loc l ls = Some j -> j < length ls.
Proof. intros Hj. apply get_loc_Some in Hj. now apply lookup_lt_Some in Hj. Qed.

Lemma get_loc_app_l (l : string) (ls ks : list string) :
  l ∈ ls -> get_loc l (ls ++ ks) = get_loc l ls.
Proof.
  induction ls as [|x ls IH]; intros Hin; [now apply elem_of_nil in Hin|].
  simpl. destruct (decide (x = l)); [reflexivity|].
  apply elem_of_cons in Hin as [-> | Hin]; [congruence|]. now rewrite IH.
Qed.

Lemma get_loc_app_r (l : string) (ls ks : list string) :
  l ∉ ls -> get_loc l (ls ++ ks) = (fun j => length ls + j) <$> get_loc l ks.
Proof.
  induction ls as [|x ls IH]; intros Hin; simpl.
  - now destruct (get_loc l ks).
  - apply not_elem_of_cons in Hin as [Hne Hin].
    destruct (decide (x = l)); [congruence|].
    rewrite IH by assumption. now destruct (get_loc l ks).
Qed.

Lemma cell_at_absent (ls : list string) (l : string) (r : row) :
  l ∉ ls -> cell_at ls l r = NaN.
Proof. intros Hn. unfold cell_at. apply get_loc_None in Hn. now rewrite Hn. Qed.

Lemma cell_at_reindex (old new : list string) (l : string) (r : row) :
  cell_at new l (reindex old new r)
  = if bool_decide (l ∈ new) then cell_at old l r else NaN.
Proof.
  unfold cell_at at 1. destruct (get_loc l new) as [j|] eqn:E.
  - pose proof (get_loc_Some _ _ _ E) as Hj.
    rewrite bool_decide_eq_true_2 by (eapply list_elem_of_lookup_2; eassumption).
    unfold reindex. now rewrite map_fmap, list_lookup_fmap, Hj.
  - apply get_loc_None in E. now rewrite bool_decide_eq_false_2.
Qed.

Lemma has_column_true (l : string) (df : DataFrame) :
  has_column l df = true <-> l ∈ columns df.
Proof. unfold has_column. apply bool_decide_eq_true. Qed.

Lemma has_column_false (l : string) (df : DataFrame) :
  has_column l df = false <-> l ∉ columns df.
Proof. unfold has_column. apply bool_decide_eq_false. Qed.

(** Among distinct labels a label that occurs occurs once. *)
Lemma occurrences_NoDup (l : string) (ls : list string) :
  NoDup ls -> l ∈ ls -> occurrences l ls = 1.
Proof.
  unfold occurrences. induction 1 as [|x ls Hx Hnd IH]; intros Hin.
  - now apply elem_of_nil in Hin.
  - simpl. destruct (decide (x = l)) as [-> | Hne].
    + rewrite bool_decide_eq_true_2 by reflexivity. simpl. f_equal.
      apply length_zero_iff_nil.
      destruct (List.filter _ ls) as [|y ys] eqn:E; [reflexivity|].
      assert (Hy : In y (List.filter (fun l0 => bool_decide (l0 = l)) ls))
        by (rewrite E; now left).
      apply filter_In in Hy as [Hy Heq]. apply bool_decide_eq_true in Heq. subst y.
      exfalso. apply Hx. now apply list_elem_of_In.
    + rewrite bool_decide_eq_false_2 by assumption.
      apply IH. apply elem_of_cons in Hin as [-> | Hin]; [congruence | assumption].
Qed.

(** In a frame with distinct labels the sort by year raises only on keys
    that do not compare. *)
Lemma sortable_wf (df : DataFrame) :
  wf df -> sortable df = negb (has_column JAHR df) || comparable (year_keys df).
Proof.
  intros [Hnd _]. unfold sortable. destruct (has_column JAHR df) eqn:Hcol; [|reflexivity].
  apply has_column_true in Hcol. now rewrite (occurrences_NoDup _ _ Hnd Hcol).
Qed.

(** *** [setitem] *)

Lemma len_setitem (l : string) (v : cell) (df : DataFrame) :
  len (setitem l v df) = len df.
Proof.
  unfold setitem, len. destruct (has_column l df); simpl; apply length_map.
Qed.

Lemma elem_of_columns_setitem (l l' : string) (v : cell) (df : DataFrame) :
  l' ∈ columns (setitem l v df) <-> l' ∈ columns df \/ l' = l.
Proof.
  unfold setitem. destruct (has_column l df) eqn:Hl; simpl.
  - apply has_column_true in Hl. split; [auto | intros [?| ->]; auto].
  - rewrite elem_of_app, list_elem_of_singleton. tauto.
Qed.

Lemma has_column_setitem (l l' : string) (v : cell) (df : DataFrame) :
  has_column l' (setitem l v df) = has_column l' df || bool_decide (l' = l).
Proof.
  apply eq_true_iff_eq.
  rewrite orb_true_iff, !has_column_true, bool_decide_eq_true.
  apply elem_of_columns_setitem.
Qed.

Lemma wf_setitem (l : string) (v : cell) (df : DataFrame) :
  wf df -> wf (setitem l v df).
Proof.
  intros [Hnd Hrows]. unfold setitem.
  destruct (has_column l df) eqn:Hl; split; simpl.
  - assumption.
  - apply Forall_forall. intros r' Hin.
    apply list_elem_of_In, in_map_iff in Hin as (r & <- & Hin).
    rewrite Forall_forall in Hrows.
    rewrite length_zip_with, (Hrows r) by now apply list_elem_of_In.
    lia.
  - apply has_column_false in Hl.
    apply NoDup_app. repeat split; [assumption | | apply NoDup_singleton].
    intros x Hx Hx'. apply list_elem_of_singleton in Hx'. congruence.
  - apply Forall_forall. intros r' Hin.
    apply list_elem_of_In, in_map_iff in Hin as (r & <- & Hin).
    rewrite Forall_forall in Hrows.
    rewrite !length_app, (Hrows r) by now apply list_elem_of_In.
    reflexivity.
Qed.

(** Every row of [setitem l v df] is the row of [df] at the same position
    with [v] under [l] and its other cells kept. *)
Lemma rows_setitem (l : string) (v : cell) (df : DataFrame) :
  wf df ->
  Forall2 (fun r r' => forall l',
             cell_at (columns (setitem l v df)) l' r'
             = if decide (l' = l) then v else cell_at (columns df) l' r)
          (rows df) (rows (setitem l v df)).
Proof.
  intros [Hnd Hrows]. unfold setitem.
  destruct (has_column l df) eqn:Hl; simpl.
  - apply Forall2_fmap_r, Forall_Forall2_diag.
    eapply Forall_impl; [exact Hrows|]. intros r Hr l'. simpl in Hr.
    unfold cell_at. destruct (get_loc l' (columns df)) as [j|] eqn:E.
    + pose proof (get_loc_Some _ _ _ E) as Hj.
      pose proof (get_loc_lt _ _ _ E) as Hlt.
      destruct (lookup_lt_is_Some_2 r j) as [c Hc]; [lia|].
      rewrite lookup_zip_with, Hj, Hc. simpl.
      destruct (decide (l' = l)); reflexivity.
    + apply get_loc_None in E. apply has_column_true in Hl.
      destruct (decide (l' = l)) as [-> |]; [contradiction | reflexivity].
  - apply has_column_false in Hl.
    apply Forall2_fmap_r, Forall_Forall2_diag.
    eapply Forall_impl; [exact Hrows|]. intros r Hr l'. simpl in Hr.
    unfold cell_at. destruct (decide (l' ∈ columns df)) as [Hin | Hnin].
    + rewrite get_loc_app_l by assumption.
      destruct (get_loc_elem _ _ Hin) as [j E]. rewrite E.
      pose proof (get_loc_lt _ _ _ E) as Hlt.
      rewrite lookup_app_l by lia.
      destruct (decide (l' = l)) as [-> |]; [contradiction | reflexivity].
    + rewrite get_loc_app_r by assumption. simpl.
      pose proof (proj2 (get_loc_None _ _) Hnin) as E. rewrite E.
      destruct (decide (l = l')) as [-> | Hne].
      * simpl. rewrite decide_True by reflexivity.
        rewrite <- Hr, Nat.add_0_r.
        now rewrite list_lookup_middle.
      * simpl. rewrite decide_False by congruence. reflexivity.
Qed.

(** *** [concat] *)

Lemma elem_of_columns_concat (l : string) (a b : DataFrame) :
  l ∈ columns (concat a b) <-> l ∈ columns a \/ l ∈ columns b.
Proof.
  unfold concat. simpl. rewrite elem_of_app, list_elem_of_difference.
  destruct (decide (l ∈ columns a)); tauto.
Qed.

Lemma has_column_concat (l : string) (a b : DataFrame) :
  has_column l (concat a b) = has_column l a || has_column l b.
Proof.
  apply eq_true_iff_eq.
  rewrite orb_true_iff, !has_column_true. apply elem_of_columns_concat.
Qed.

Lemma len_concat (a b : DataFrame) : len (concat a b) = len a + len b.
Proof. unfold concat, len. simpl. now rewrite length_app, !length_map. Qed.

Lemma wf_concat (a b : DataFrame) : wf a -> wf b -> wf (concat a b).
Proof.
  intros [Hna _] [Hnb _]. split; simpl.
  - apply NoDup_app. repeat split; [assumption | | now apply NoDup_list_difference].
    intros x Hx Hx'. apply list_elem_of_difference in Hx'. tauto.
  - apply Forall_app. split; apply Forall_forall; intros r' Hin;
      apply list_elem_of_In, in_map_iff in Hin as (r & <- & _);
      unfold reindex; now rewrite length_map.
Qed.

(** The rows of [concat a b] are the rows of [a], then the rows of [b],
    each with the cells it had and a missing value under the labels it did
    not have. *)
Lemma rows_concat (a b : DataFrame) :
  exists ra rb,
    rows (concat a b) = ra ++ rb
    /\ Forall2 (fun r r' => forall l,
                  cell_at (columns (concat a b)) l r' = cell_at (columns a) l r)
               (rows a) ra
    /\ Forall2 (fun r r' => forall l,
                  cell_at (columns (concat a b)) l r' = cell_at (columns b) l r)
               (rows b) rb.
Proof.
  eexists _, _. split; [reflexivity|].
  assert (Hcell : forall (d : DataFrame) (r : row) (l : string),
             (l ∈ columns d -> l ∈ columns (concat a b)) ->
             cell_at (columns (concat a b)) l
                     (reindex (columns d) (columns (concat a b)) r)
             = cell_at (columns d) l r).
  { intros d r l Hsub. rewrite cell_at_reindex. case_bool_decide as Hin; [reflexivity|].
    symmetry. apply cell_at_absent. tauto. }
  split; rewrite map_fmap; apply Forall2_fmap_r, Forall_Forall2_diag, Forall_forall;
    intros r _ l; apply Hcell; rewrite elem_of_columns_concat; tauto.
Qed.

(** *** The combined frame *)

Lemma len_combined (b w : option DataFrame) (df : DataFrame) :
  combined b w = Some df -> len df = length (rows_of b) + length (rows_of w).
Proof.
  destruct b as [b|], w as [w|]; simpl; intros Hc; inversion Hc; subst.
  - now rewrite len_concat, !len_setitem.
  - rewrite len_setitem. unfold len. lia.
  - now rewrite len_setitem.
Qed.

Lemma has_column_combined (b w : option DataFrame) (df : DataFrame) (l : string) :
  combined b w = Some df ->
  l ∈ columns df <-> l ∈ columns_of b \/ l ∈ columns_of w \/ l = TAG.
Proof.
  destruct b as [b|], w as [w|]; simpl; intros Hc; inversion Hc; subst.
  - rewrite elem_of_columns_concat, !elem_of_columns_setitem. tauto.
  - rewrite elem_of_columns_setitem, elem_of_nil. tauto.
  - rewrite elem_of_columns_setitem, elem_of_nil. tauto.
Qed.

Lemma tagged_setitem (tag : string) (df : DataFrame) :
  wf df ->
  Forall2 (tagged tag (columns df) (columns (setitem TAG (Str tag) df)))
          (rows df) (rows (setitem TAG (Str tag) df)).
Proof. intros Hwf. exact (rows_setitem TAG (Str tag) df Hwf). Qed.

(** The rows of the combined frame: the rows of the first input tagged with
    its provenance, in their order, then the rows of the second input
    tagged with its provenance, in their order. *)
Lemma rows_combined (b w : option DataFrame) (df : DataFrame) :
  wf_opt b -> wf_opt w -> combined b w = Some df ->
  exists rb rw,
    rows df = rb ++ rw
    /\ Forall2 (tagged TAG_BEHANDLUNGSORT (columns_of b) (columns df)) (rows_of b) rb
    /\ Forall2 (tagged TAG_WOHNORT (columns_of w) (columns df)) (rows_of w) rw.
Proof.
  destruct b as [b|], w as [w|]; simpl; intros Hb Hw Hc; inversion Hc; subst; clear Hc.
  - destruct (rows_concat (setitem TAG (Str TAG_BEHANDLUNGSORT) b)
                          (setitem TAG (Str TAG_WOHNORT) w))
      as (ra & rb & Hrows & Ha & Hb').
    exists ra, rb. split; [assumption|].
    split.
    + eapply Forall2_trans; [| apply tagged_setitem; eassumption | exact Ha].
      intros r r' r'' Hr Hr' l. simpl in Hr'. now rewrite Hr', Hr.
    + eapply Forall2_trans; [| apply tagged_setitem; eassumption | exact Hb'].
      intros r r' r'' Hr Hr' l. simpl in Hr'. now rewrite Hr', Hr.
  - eexists _, []. rewrite app_nil_r. split; [reflexivity|].
    split; [now apply tagged_setitem | constructor].
  - eexists [], _. split; [reflexivity|].
    split; [constructor | now apply tagged_setitem].
Qed.

Lemma wf_combined (b w : option DataFrame) (df : DataFrame) :
  wf_opt b -> wf_opt w -> combined b w = Some df -> wf df.
Proof.
  destruct b as [b|], w as [w|]; simpl; intros Hb Hw Hc; inversion Hc; subst.
  - apply wf_concat; now apply wf_setitem.
  - now apply wf_setitem.
  - now apply wf_setitem.
Qed.

(** ** Sorting *)

Lemma filter_complement_Permutation {A : Type} (f : A -> bool) (l : list A) :
  List.filter (fun x => negb (f x)) l ++ List.filter f l ≡ₚ l.
Proof.
  induction l as [|x l IH]; simpl; [reflexivity|].
  destruct (f x); simpl.
  - rewrite <- Permutation_middle. now constructor.
  - now constructor.
Qed.

Lemma lookup_total_seq_self {A : Type} `{Inhabited A} (l : list A) :
  map (fun i => l !!! i) (seq 0 (length l)) = l.
Proof.
  apply list_eq. intros i. rewrite map_fmap, list_lookup_fmap.
  destruct (decide (i < length l)) as [Hlt | Hge].
  - rewrite lookup_seq_lt by assumption. simpl.
    now rewrite (list_lookup_lookup_total_lt l i Hlt).
  - rewrite lookup_seq_ge by lia. simpl. symmetry. apply lookup_ge_None. lia.
Qed.

Lemma take_Permutation (idx : list nat) (rs : list row) :
  idx ≡ₚ seq 0 (length rs) -> take idx rs ≡ₚ rs.
Proof.
  intros Hperm. unfold take.
  transitivity (map (fun i => rs !!! i) (seq 0 (length rs))).
  - now apply Permutation_map.
  - now rewrite lookup_total_seq_self.
Qed.

Lemma Sorted_app_NaN (ks ms : list cell) :
  Sorted cell_le ks -> Forall (fun c => c = NaN) ms -> Sorted cell_le (ks ++ ms).
Proof.
  intros Hks Hms. induction Hks as [|k ks Hks IH Hhd]; simpl.
  - induction Hms as [|m ms -> Hms IH]; constructor; [assumption|].
    destruct Hms as [|m' ms' ->]; constructor. reflexivity.
  - constructor; [assumption|].
    destruct Hhd as [|k' ks' Hle]; simpl; [|now constructor].
    destruct Hms as [|m ms ->]; constructor. unfold cell_le. now destruct k.
Qed.

Section SortValues.

Context `{Argsort}.

Lemma take_keys (key : row -> cell) (rs : list row) (idx : list nat) :
  idx ≡ₚ seq 0 (length rs) ->
  map key (take idx rs) = map (fun i => map key rs !!! i) idx.
Proof.
  intros Hperm. unfold take. rewrite map_map.
  apply map_ext_in. intros i Hin.
  assert (Hlt : i < length rs).
  { apply (Permutation_in _ Hperm), in_seq in Hin. lia. }
  symmetry. apply list_lookup_total_correct.
  rewrite map_fmap, list_lookup_fmap.
  now rewrite (list_lookup_lookup_total_lt rs i Hlt).
Qed.

(** With a year column whose keys compare, [sort_values] returns the same
    columns, the same rows in another order, and the year column in
    non-decreasing order with the missing years last. *)
Lemma sortable_year_column (df : DataFrame) :
  has_column JAHR df = true -> sortable df = true ->
  Nat.eqb (occurrences JAHR (columns df)) 1 = true /\ comparable (year_keys df) = true.
Proof.
  intros Hcol Hsort. unfold sortable in Hsort. rewrite Hcol in Hsort.
  now apply andb_true_iff in Hsort.
Qed.

Lemma sort_values_Ret (df : DataFrame) :
  has_column JAHR df = true -> sortable df = true ->
  exists sorted,
    sort_values JAHR df = Ret sorted
    /\ columns sorted = columns df
    /\ rows sorted ≡ₚ rows df
    /\ Sorted cell_le (column JAHR sorted).
Proof.
  intros Hcol Hsort.
  destruct (sortable_year_column df Hcol Hsort) as [Hone Hcmp].
  apply has_column_true, get_loc_elem in Hcol as [j Hj].
  unfold sort_values. rewrite Hj, Hone. fold (year_keys df). rewrite Hcmp.
  eexists. split; [reflexivity|]. simpl.
  set (key := cell_at (columns df) JAHR).
  set (present := List.filter (fun r => negb (isna (key r))) (rows df)).
  set (missing := List.filter (fun r => isna (key r)) (rows df)).
  assert (Hidx : argsort (year_keys df) ≡ₚ seq 0 (length present)).
  { rewrite argsort_perm. unfold year_keys. now rewrite length_map. }
  split; [reflexivity|]. split.
  - rewrite take_Permutation by assumption.
    apply filter_complement_Permutation.
  - unfold column. simpl. fold key. rewrite map_app.
    apply Sorted_app_NaN.
    + rewrite take_keys by assumption. now apply argsort_sorted.
    + apply Forall_forall. intros c Hin.
      apply list_elem_of_In, in_map_iff in Hin as (r & <- & Hin).
      apply filter_In in Hin as [_ Hna]. now destruct (key r).
Qed.

Lemma sort_values_Raise (df : DataFrame) :
  has_column JAHR df = true -> sortable df = false ->
  exists e, sort_values JAHR df = Raise e.
Proof.
  intros Hcol Hsort. unfold sortable in Hsort. rewrite Hcol in Hsort. simpl in Hsort.
  apply has_column_true, get_loc_elem in Hcol as [j Hj].
  unfold sort_values. rewrite Hj. fold (year_keys df).
  destruct (Nat.eqb (occurrences JAHR (columns df)) 1); simpl in *; [|eauto].
  rewrite Hsort. eauto.
Qed.

Lemma columns_final_frame (df : DataFrame) :
  columns (final_frame df) = columns df.
Proof.
  unfold final_frame. destruct (has_column JAHR df) eqn:Hcol; [|reflexivity].
  destruct (sortable df) eqn:Hsort.
  - destruct (sort_values_Ret df Hcol Hsort) as (s & -> & Hc & _). exact Hc.
  - now destruct (sort_values_Raise df Hcol Hsort) as [e ->].
Qed.

Lemma rows_final_frame (df : DataFrame) :
  rows (final_frame df) ≡ₚ rows df.
Proof.
  unfold final_frame. destruct (has_column JAHR df) eqn:Hcol; [|reflexivity].
  destruct (sortable df) eqn:Hsort.
  - destruct (sort_values_Ret df Hcol Hsort) as (s & -> & _ & Hr & _). exact Hr.
  - now destruct (sort_values_Raise df Hcol Hsort) as [e ->].
Qed.

Lemma final_frame_unsorted (df : DataFrame) :
  has_column JAHR df = false -> final_frame df = df.
Proof. intros Hcol. unfold final_frame. now rewrite Hcol. Qed.

Lemma final_frame_sorted (df : DataFrame) :
  has_column JAHR df = true -> sortable df = true ->
  sort_values JAHR df = Ret (final_frame df)
  /\ Sorted cell_le (column JAHR (final_frame df)).
Proof.
  intros Hcol Hsort. unfold final_frame. rewrite Hcol.
  destruct (sort_values_Ret df Hcol Hsort) as (s & -> & _ & _ & Hs). now split.
Qed.

Lemma len_final_frame (df : DataFrame) : len (final_frame df) = len df.
Proof. unfold len. now rewrite rows_final_frame. Qed.

Lemma has_column_final_frame (l : string) (df : DataFrame) :
  has_column l (final_frame df) = has_column l df.
Proof. unfold has_column. now rewrite columns_final_frame. Qed.

Lemma wf_final_frame (df : DataFrame) : wf df -> wf (final_frame df).
Proof.
  intros [Hnd Hrows]. split; rewrite columns_final_frame; [assumption|].
  now rewrite rows_final_frame.
Qed.

End SortValues.

(** *** Merge sort is an [argsort] *)

Lemma cell_leb_total_total (x y : cell) :
  cell_leb_total x y = true \/ cell_leb_total y x = true.
Proof.
  destruct x as [|a|s], y as [|b|t]; simpl; auto.
  - destruct (Z.leb_spec a b); [now left | right]. apply Z.leb_le. lia.
  - apply String.leb_total.
Qed.

#[global] Instance key_le_total : Total key_le.
Proof.
  intros [k i] [k' i']. unfold key_le, key_leb. simpl.
  destruct (cell_leb_total k k') eqn:Hle, (cell_leb_total k' k) eqn:Hge; auto.
  - destruct (Nat.leb_spec i i'); [now left | right]. apply Nat.leb_le. lia.
  - destruct (cell_leb_total_total k k'); congruence.
Qed.

Lemma key_le_fst (x y : cell * nat) : key_le x y -> cell_leb_total x.1 y.1 = true.
Proof. unfold key_le, key_leb. now destruct (cell_leb_total x.1 y.1). Qed.

Lemma cell_leb_total_comparable (ks : list cell) (x y : cell) :
  comparable ks = true -> x ∈ ks -> y ∈ ks ->
  cell_leb_total x y = true -> cell_le x y.
Proof.
  unfold comparable. intros Hc Hx Hy Hle.
  apply orb_true_iff in Hc as [Hc | Hc]; rewrite forallb_forall in Hc;
    apply list_elem_of_In, Hc in Hx; apply list_elem_of_In, Hc in Hy;
    destruct x, y; try discriminate; exact Hle.
Qed.

Lemma Sorted_weaken {A : Type} (R R' : A -> A -> Prop) (l : list A) :
  (forall x y, x ∈ l -> y ∈ l -> R x y -> R' x y) -> Sorted R l -> Sorted R' l.
Proof.
  intros Himp Hs. induction Hs as [|x l Hs IH Hhd]; constructor.
  - apply IH. intros a b Ha Hb. apply Himp; now right.
  - destruct Hhd as [|y l' Hxy]; constructor.
    apply Himp; [left | right; left | assumption].
Qed.

Lemma merge_argsort_perm (ks : list cell) :
  merge_argsort ks ≡ₚ seq 0 (length ks).
Proof.
  unfold merge_argsort. rewrite merge_sort_Permutation.
  rewrite snd_zip; [reflexivity|]. now rewrite length_seq.
Qed.

Lemma merge_argsort_keys (ks : list cell) :
  map (fun i => ks !!! i) (merge_argsort ks)
  = (merge_sort key_le (zip ks (seq 0 (length ks)))).*1.
Proof.
  unfold merge_argsort. rewrite map_fmap, <- list_fmap_compose.
  apply Forall_fmap_ext.
  rewrite merge_sort_Permutation.
  apply Forall_forall. intros [k i] Hin. simpl.
  apply list_elem_of_lookup in Hin as [n Hn].
  apply lookup_zip_with_Some in Hn as (k' & i' & Heq & Hk & Hi).
  inversion Heq; subst k' i'.
  apply lookup_seq in Hi as [-> _]. simpl.
  now apply list_lookup_total_correct.
Qed.

Lemma merge_argsort_sorted (ks : list cell) :
  comparable ks = true ->
  Sorted cell_le (map (fun i => ks !!! i) (merge_argsort ks)).
Proof.
  intros Hc. rewrite merge_argsort_keys.
  apply Sorted_weaken with (R := fun x y => cell_leb_total x y = true).
  - intros x y Hx Hy. apply (cell_leb_total_comparable ks); [assumption| |].
    + apply list_elem_of_fmap in Hx as ([k i] & -> & Hin).
      rewrite merge_sort_Permutation in Hin.
      apply elem_of_zip_l in Hin. exact Hin.
    + apply list_elem_of_fmap in Hy as ([k i] & -> & Hin).
      rewrite merge_sort_Permutation in Hin.
      apply elem_of_zip_l in Hin. exact Hin.
  - apply (Sorted_fmap fst key_le); [exact key_le_fst|].
    apply Sorted_merge_sort. apply _.
Qed.

Definition merge_Argsort : Argsort :=
  {| argsort := merge_argsort;
     argsort_perm := merge_argsort_perm;
     argsort_sorted := merge_argsort_sorted |}.

Example sort_values_missing_last :
  sort_values (H := merge_Argsort) JAHR
    {| columns := ["Jahr"; "Wert"];
       rows := [[NaN; Num 1]; [Num 2006; Num 2]; [Num 2005; Num 3]] |}
  = Ret {| columns := ["Jahr"; "Wert"];
           rows := [[Num 2005; Num 3]; [Num 2006; Num 2]; [NaN; Num 1]] |}.
Proof. reflexivity. Qed.

Example sort_values_mixed_raises :
  sort_values (H := merge_Argsort) JAHR
    {| columns := ["Jahr"]; rows := [[Num 2005]; [Str "2006"]] |}
  = Raise TypeError.
Proof. reflexivity. Qed.

Example sort_values_repeated_label_raises :
  sort_values (H := merge_Argsort) JAHR
    {| columns := ["Jahr"; "Jahr"]; rows := [[Num 2006; Num 1]; [Num 2005; Num 2]] |}
  = Raise (ValueError JAHR).
Proof. reflexivity. Qed.

Example sort_values_equal_keys_in_order :
  sort_values (H := merge_Argsort) JAHR
    {| columns := ["Jahr"; "Wert"];
       rows := [[Num 2006; Num 1]; [Num 2005; Num 2]; [Num 2005; Num 3]; [Num 2005; Num 4]] |}
  = Ret {| columns := ["Jahr"; "Wert"];
           rows := [[Num 2005; Num 2]; [Num 2005; Num 3]; [Num 2005; Num 4];
                    [Num 2006; Num 1]] |}.
Proof. reflexivity. Qed.

(** The reductions of the example environment. *)
Example series_reduce_numbers :
  series_reduce Z.min str_min [Num 2006; NaN; Num 2005] = Ret (Num 2005).
Proof. reflexivity. Qed.

Example series_reduce_strings :
  series_reduce Z.max str_max [Str "2005"; Str "2006"] = Ret (Str "2006").
Proof. reflexivity. Qed.

Example series_reduce_strings_missing :
  series_reduce Z.min str_min [Str "2005"; NaN] = Raise TypeError.
Proof. reflexivity. Qed.

(** ** Running programs *)

Lemma same_store_refl (w : World) : same_store w w.
Proof. now split. Qed.

Lemma same_store_trans (w1 w2 w3 : World) :
  same_store w1 w2 -> same_store w2 w3 -> same_store w1 w3.
Proof. intros [? ?] [? ?]. split; congruence. Qed.

Lemma bind_Ret {A B : Type} (m : M A) (k : A -> M B) (w w' : World) (a : A) :
  m w = (Ret a, w') -> bind m k w = k a w'.
Proof. intros Hm. unfold bind. now rewrite Hm. Qed.

Lemma bind_Raise {A B : Type} (m : M A) (k : A -> M B) (w w' : World) (e : exn) :
  m w = (Raise e, w') -> bind m k w = (Raise e, w').
Proof. intros Hm. unfold bind. now rewrite Hm. Qed.

Lemma try_except_Ret {A : Type} (m : M A) (h : exn -> M A) (w w' : World) (a : A) :
  m w = (Ret a, w') -> try_except m h w = (Ret a, w').
Proof. intros Hm. unfold try_except. now rewrite Hm. Qed.

Lemma try_except_Raise {A : Type} (m : M A) (h : exn -> M A) (w w' : World) (e : exn) :
  m w = (Raise e, w') -> try_except m h w = h e w'.
Proof. intros Hm. unfold try_except. now rewrite Hm. Qed.

Lemma load_Some (r : ref) (df : DataFrame) (w : World) :
  heap w !! r = Some df -> load r w = (Ret df, w).
Proof. intros Hr. unfold load. now rewrite Hr. Qed.

Lemma bind_assoc {A B C : Type} (m : M A) (k1 : A -> M B) (k2 : B -> M C) (w : World) :
  bind (bind m k1) k2 w = bind m (fun a => bind (k1 a) k2) w.
Proof. unfold bind. now destruct (m w) as [[a|e] w']. Qed.

Lemma bind_ret {A B : Type} (a : A) (k : A -> M B) (w : World) :
  bind (ret a) k w = k a w.
Proof. reflexivity. Qed.

Lemma bind_print {B : Type} (fmt : string) (args : list pyval) (k : unit -> M B) (w : World) :
  bind (print fmt args) k w = k tt (with_console (console w ++ [Print fmt args]) w).
Proof. reflexivity. Qed.

Lemma run_if_then (c : bool) (m : M unit) (w : World) :
  (exists w', m w = (Ret tt, w') /\ same_store w w') ->
  exists w', (if c then m else ret tt) w = (Ret tt, w') /\ same_store w w'.
Proof.
  intros Hm. destruct c; [exact Hm|]. exists w. split; [reflexivity | apply same_store_refl].
Qed.

(** The path of the configuration file is not the path of the output. *)
Lemma last_char_append (s t : string) :
  t <> EmptyString -> last_char (s +:+ t) = last_char t.
Proof.
  intros Ht. induction s as [|c s IH]; [reflexivity|].
  simpl. rewrite IH. destruct (s +:+ t) eqn:E; [|reflexivity].
  destruct s; simpl in E; [contradiction | discriminate].
Qed.

Lemma path_join_config_ini (dir : string) : path_join dir "config.ini" <> OUTPUT_FILE.
Proof.
  intros Heq. apply (f_equal last_char) in Heq.
  unfold path_join in Heq. destruct dir as [|c dir]; [discriminate|].
  destruct (ends_with_slash (String c dir));
    rewrite ?last_char_append in Heq by discriminate; discriminate.
Qed.

Section Runs.

Context `{Argsort} (env : Env).

Lemma run_print_nunique (c : ref) (df : DataFrame) (label fmt : string) (w : World) :
  heap w !! c = Some df ->
  exists w', print_nunique c label fmt w = (Ret tt, w') /\ same_store w w'.
Proof.
  intros Hc. unfold print_nunique, df_has_column, df_column, bind, load, ret, print.
  rewrite Hc. destruct (has_column label df); cbn; rewrite ?Hc;
    eexists; (split; [reflexivity | now split]).
Qed.

Lemma run_print_summary (c : ref) (df : DataFrame) (w : World) :
  heap w !! c = Some df ->
  exists r w', print_summary env c w = (r, w') /\ same_store w w'
               /\ is_ret r = summary_ok env df.
Proof.
  intros Hc. unfold print_summary, summary_ok.
  rewrite (bind_Ret _ _ w w (has_column JAHR df))
    by (unfold df_has_column, bind, ret; now rewrite (load_Some _ _ _ Hc)).
  destruct (has_column JAHR df); simpl negb; cbv iota.
  2: { eexists _, _. split; [reflexivity|]. split; [apply same_store_refl | reflexivity]. }
  unfold bind at 1. unfold print at 1. cbv iota beta.
  set (w1 := with_console _ w).
  assert (Hc1 : heap w1 !! c = Some df) by exact Hc.
  rewrite (bind_Ret _ _ w1 w1 (column JAHR df))
    by (unfold df_column, bind, ret; now rewrite (load_Some _ _ _ Hc1)).
  unfold bind at 1, lift at 1.
  destruct (series_min env (column JAHR df)) as [lo | e].
  2: { eexists _, _. split; [reflexivity|]. split; [now split | reflexivity]. }
  unfold bind at 1, lift at 1.
  destruct (series_max env (column JAHR df)) as [hi | e].
  2: { eexists _, _. split; [reflexivity|]. split; [now split | reflexivity]. }
  unfold bind at 1. unfold print at 1. cbv iota beta.
  set (w2 := with_console _ w1).
  assert (Hc2 : heap w2 !! c = Some df) by exact Hc.
  destruct (run_print_nunique c df "Bundesland"
              "  Bundesländer: {combined_data['Bundesland'].nunique()}" w2 Hc2)
    as (w3 & Hrun3 & Hs3).
  rewrite (bind_Ret _ _ _ _ _ Hrun3).
  assert (Hc3 : heap w3 !! c = Some df) by (destruct Hs3 as [-> _]; exact Hc).
  destruct (run_print_nunique c df "Geschlecht"
              "  Geschlecht categories: {combined_data['Geschlecht'].nunique()}" w3 Hc3)
    as (w4 & Hrun4 & Hs4).
  rewrite (bind_Ret _ _ _ _ _ Hrun4).
  assert (Hc4 : heap w4 !! c = Some df) by (destruct Hs4 as [-> _]; now destruct Hs3 as [-> _]).
  destruct (run_print_nunique c df "Altersgruppe"
              "  Age groups: {combined_data['Altersgruppe'].nunique()}" w4 Hc4)
    as (w5 & Hrun5 & Hs5).
  eexists _, _. split; [exact Hrun5|]. split; [|reflexivity].
  assert (Hs12 : same_store w w2) by now split.
  eauto using same_store_trans.
Qed.

Lemma run_sort_and_save (c : ref) (df : DataFrame) (out : string) (w : World) :
  heap w !! c = Some df -> last (heap w) = Some df ->
  exists r w',
    sort_and_save env c out w = (r, w')
    /\ heap w `prefix_of` heap w'
    /\ last (heap w') = Some (final_frame df)
    /\ files w' = (if can_save env out df
                   then <[out := to_csv env (final_frame df)]> (files w)
                   else files w)
    /\ (forall b, r = Ret b -> b = true)
    /\ is_ret r = can_save env out df && summary_ok env (final_frame df).
Proof.
  intros Hc Hlast. unfold sort_and_save.
  rewrite (bind_Ret _ _ w w (has_column JAHR df))
    by (unfold df_has_column, bind, ret; now rewrite (load_Some _ _ _ Hc)).
  match goal with |- context [bind _ ?k] => set (K := k) end.
  assert (Htail : forall c1 w1,
             heap w1 !! c1 = Some (final_frame df) ->
             exists r w',
               K c1 w1 = (r, w')
               /\ heap w' = heap w1
               /\ files w' = (if writable env out
                              then <[out := to_csv env (final_frame df)]> (files w1)
                              else files w1)
               /\ (forall b, r = Ret b -> b = true)
               /\ is_ret r = writable env out && summary_ok env (final_frame df)).
  { intros c1 w1 Hc1. subst K. cbv beta.
    unfold bind at 1, df_to_csv, bind at 1. rewrite (load_Some _ _ _ Hc1).
    unfold write_file. destruct (writable env out).
    2: { eexists _, _. split; [reflexivity|]. repeat split; discriminate. }
    cbv iota beta.
    set (w2 := with_files _ w1).
    unfold bind at 1, print at 1. cbv iota beta.
    unfold bind at 1, df_len, bind at 1, load at 1, ret at 1. cbn [heap with_console].
    change (heap w2) with (heap w1). rewrite Hc1. cbv iota beta.
    unfold bind at 1, print at 1. cbv iota beta.
    unfold bind at 1, df_columns, bind at 1, load at 1, ret at 1. cbn [heap with_console].
    change (heap w2) with (heap w1). rewrite Hc1. cbv iota beta.
    unfold bind at 1, print at 1. cbv iota beta.
    match goal with |- context [bind (print_summary env c1) _ ?w0] => set (w3 := w0) end.
    assert (Hc3 : heap w3 !! c1 = Some (final_frame df)) by exact Hc1.
    destruct (run_print_summary c1 _ w3 Hc3) as (r & w4 & Hrun & [Hh Hf] & Hok).
    unfold bind. rewrite Hrun. destruct r as [[]|e].
    - eexists _, _. split; [reflexivity|].
      split; [exact Hh|]. split; [exact Hf|]. split; [congruence|].
      simpl in *. now rewrite <- Hok.
    - eexists _, _. split; [reflexivity|].
      split; [exact Hh|]. split; [exact Hf|]. split; [discriminate|].
      simpl in *. now rewrite <- Hok. }
  unfold can_save.
  destruct (has_column JAHR df) eqn:Hcol; cbv iota.
  - destruct (sortable df) eqn:Hsortable; simpl andb.
    + destruct (final_frame_sorted df Hcol Hsortable) as [Hsort _].
      assert (Hrun : df_sort_values c JAHR w
                     = (Ret (length (heap w)),
                        with_heap (heap w ++ [final_frame df]) w)).
      { unfold df_sort_values, bind, lift, alloc. now rewrite (load_Some _ _ _ Hc), Hsort. }
      rewrite (bind_Ret _ _ _ _ _ Hrun).
      destruct (Htail (length (heap w)) (with_heap (heap w ++ [final_frame df]) w))
        as (r & w' & HK & Hh & Hf & Hb & Hok).
      { simpl. now rewrite list_lookup_middle. }
      exists r, w'. split; [exact HK|]. rewrite Hh. simpl in *.
      split; [now apply prefix_app_r|]. split; [apply last_snoc|].
      split; [exact Hf|]. split; assumption.
    + destruct (sort_values_Raise df Hcol Hsortable) as [e Hsort].
      assert (Hrun : df_sort_values c JAHR w = (Raise e, w)).
      { unfold df_sort_values, bind, lift. now rewrite (load_Some _ _ _ Hc), Hsort. }
      rewrite (bind_Raise _ _ _ _ _ Hrun).
      eexists _, _. split; [reflexivity|]. split; [reflexivity|].
      split; [|repeat split; discriminate].
      unfold final_frame. now rewrite Hcol, Hsort.
  - assert (Hsortable : sortable df = true) by (unfold sortable; now rewrite Hcol).
    rewrite Hsortable. simpl andb. rewrite (bind_Ret _ _ w w c) by reflexivity.
    rewrite (final_frame_unsorted df Hcol) in *.
    destruct (Htail c w Hc) as (r & w' & HK & Hh & Hf & Hb & Hok).
    exists r, w'. split; [exact HK|]. rewrite Hh.
    split; [reflexivity|]. split; [exact Hlast|]. split; [exact Hf|]. split; assumption.
Qed.

Lemma run_tag_input (o : option ref) (d : option DataFrame) (tag fmt : string) (w : World) :
  holds w o d ->
  exists o' w',
    tag_input o tag fmt w = (Ret o', w')
    /\ files w' = files w
    /\ heap w' = heap w ++ match d with
                           | Some df => [setitem TAG (Str tag) df]
                           | None => []
                           end
    /\ holds w' o' (setitem TAG (Str tag) <$> d).
Proof.
  destruct o as [r|], d as [df|]; simpl; try contradiction; intros Hr.
  - unfold tag_input, copy, df_setitem, df_len, bind, load, alloc, store, print, ret.
    rewrite Hr. cbn [heap with_heap with_console].
    rewrite list_lookup_middle by reflexivity.
    cbn [heap with_heap with_console].
    assert (Hins : <[length (heap w) := setitem TAG (Str tag) df]> (heap w ++ [df])
                   = heap w ++ [setitem TAG (Str tag) df]).
    { rewrite <- (Nat.add_0_r (length (heap w))) at 1. now rewrite insert_app_r. }
    rewrite Hins, list_lookup_middle by reflexivity.
    eexists _, _. split; [reflexivity|]. cbn.
    split; [reflexivity|]. split; [reflexivity|].
    now rewrite list_lookup_middle.
  - eexists _, _. split; [reflexivity|]. split; [reflexivity|].
    split; [now rewrite app_nil_r | exact I].
Qed.

Lemma holds_prefix (w w' : World) (o : option ref) (d : option DataFrame) :
  heap w `prefix_of` heap w' -> holds w o d -> holds w' o d.
Proof.
  intros Hpre. destruct o as [r|], d as [df|]; simpl; try tauto.
  intros Hr. eapply prefix_lookup_Some; eassumption.
Qed.

(** What [combine_and_save_data] does, from the contents of its inputs: it
    never raises, it only adds objects, and it writes the output file
    exactly when there is an input, the sort does not raise and the path
    can be written; the frame written is the last object it made. *)
Lemma run_combine_and_save_data (ob ow : option ref) (b wo : option DataFrame)
    (out : string) (w : World) :
  holds w ob b -> holds w ow wo ->
  exists r w',
    combine_and_save_data env ob ow out w = (Ret r, w')
    /\ heap w `prefix_of` heap w'
    /\ match combined b wo with
       | None => r = false /\ files w' = files w
       | Some df =>
           last (heap w') = Some (final_frame df)
           /\ files w' = (if can_save env out df
                          then <[out := to_csv env (final_frame df)]> (files w)
                          else files w)
           /\ r = can_save env out df && summary_ok env (final_frame df)
       end.
Proof.
  intros Hb Hw. unfold combine_and_save_data.
  match goal with |- context [try_except ?m ?h] => set (body := m); set (handler := h) end.
  assert (Hhandler : forall e w1, exists w2,
             handler e w1 = (Ret false, w2) /\ same_store w1 w2).
  { intros e w1. eexists. split; [reflexivity | now split]. }
  assert (Hbody : exists r w',
             body w = (r, w')
             /\ heap w `prefix_of` heap w'
             /\ match combined b wo with
                | None => r = Ret false /\ files w' = files w
                | Some df =>
                    last (heap w') = Some (final_frame df)
                    /\ files w' = (if can_save env out df
                                   then <[out := to_csv env (final_frame df)]> (files w)
                                   else files w)
                    /\ (forall x, r = Ret x -> x = true)
                    /\ is_ret r = can_save env out df && summary_ok env (final_frame df)
                end).
  { subst body. unfold bind at 1, print at 1. cbv iota beta.
    set (w0 := with_console _ w).
    destruct (run_tag_input ob b TAG_BEHANDLUNGSORT
                "   Behandlungsort data: {len(data_behandlungsort)} rows" w0 Hb)
      as (ob' & w1 & Hrun1 & Hf1 & Hh1 & Hb1).
    rewrite (bind_Ret _ _ _ _ _ Hrun1).
    assert (Hw1 : holds w1 ow wo).
    { apply (holds_prefix w0); [|exact Hw]. rewrite Hh1. now apply prefix_app_r. }
    destruct (run_tag_input ow wo TAG_WOHNORT
                "   Wohnort data: {len(data_wohnort)} rows" w1 Hw1)
      as (ow' & w2 & Hrun2 & Hf2 & Hh2 & Hw2).
    rewrite (bind_Ret _ _ _ _ _ Hrun2).
    assert (Hb2 : holds w2 ob' (setitem TAG (Str TAG_BEHANDLUNGSORT) <$> b)).
    { apply (holds_prefix w1); [|exact Hb1]. rewrite Hh2. now apply prefix_app_r. }
    assert (Hpre : heap w `prefix_of` heap w2).
    { rewrite Hh2, Hh1. change (heap w0) with (heap w).
      rewrite <- app_assoc. now apply prefix_app_r. }
    assert (Hfiles : files w2 = files w) by (rewrite Hf2, Hf1; reflexivity).
    destruct b as [b|], wo as [wo|]; simpl in Hb2, Hw2 |- *;
      destruct ob' as [rb|], ow' as [rw|]; try contradiction.
    - set (df := concat _ _).
      assert (Hrun3 : pd_concat rb rw w2
                      = (Ret (length (heap w2)), with_heap (heap w2 ++ [df]) w2)).
      { unfold pd_concat, bind, alloc. now rewrite (load_Some _ _ _ Hb2), (load_Some _ _ _ Hw2). }
      rewrite (bind_Ret _ _ _ _ _ Hrun3).
      destruct (run_sort_and_save (length (heap w2)) df out
                  (with_heap (heap w2 ++ [df]) w2))
        as (r & w' & Hrun & Hp & Hl & Hf & Hx & Hok).
      { simpl. now rewrite list_lookup_middle. }
      { simpl. apply last_snoc. }
      exists r, w'. split; [exact Hrun|]. simpl in Hp, Hf.
      split; [etrans; [exact Hpre|]; etrans; [|exact Hp]; now apply prefix_app_r|].
      rewrite Hfiles in Hf. auto.
    - set (df := setitem _ _ b) in *.
      destruct (run_sort_and_save rb df out w2 Hb2)
        as (r & w' & Hrun & Hp & Hl & Hf & Hx & Hok).
      { rewrite Hh2, Hh1, app_nil_r. apply last_snoc. }
      exists r, w'. split; [exact Hrun|].
      split; [etrans; eassumption|]. rewrite Hfiles in Hf. auto.
    - set (df := setitem _ _ wo) in *.
      destruct (run_sort_and_save rw df out w2 Hw2)
        as (r & w' & Hrun & Hp & Hl & Hf & Hx & Hok).
      { rewrite Hh2. apply last_snoc. }
      exists r, w'. split; [exact Hrun|].
      split; [etrans; eassumption|]. rewrite Hfiles in Hf. auto.
    - eexists _, _. split; [reflexivity|]. auto. }
  destruct Hbody as (r & w1 & Hrun & Hpre & Hspec).
  destruct r as [x | e].
  - rewrite (try_except_Ret _ _ _ _ _ Hrun).
    exists x, w1. split; [reflexivity|]. split; [exact Hpre|].
    destruct (combined b wo) as [df|].
    + destruct Hspec as (Hl & Hf & Hx & Hok). simpl in Hok.
      rewrite (Hx x eq_refl). auto.
    + destruct Hspec as [Hx Hf]. inversion Hx. auto.
  - rewrite (try_except_Raise _ _ _ _ _ Hrun).
    destruct (Hhandler e w1) as (w2 & -> & [Hh Hf]).
    exists false, w2. split; [reflexivity|]. rewrite Hh, Hf.
    split; [exact Hpre|].
    destruct (combined b wo) as [df|].
    + destruct Hspec as (Hl & Hf' & Hx & Hok). simpl in Hok. auto.
    + destruct Hspec as [Hx _]. discriminate.
Qed.

(** [fetch_table_data] never raises; what it returns is decided by the
    provider's answer. *)
Lemma run_fetch_table_data (table_code startyear endyear : string) (w : World) :
  exists o w',
    fetch_table_data env table_code startyear endyear w = (Ret o, w')
    /\ files w' = files w
    /\ match genesis env table_code startyear endyear true "de" with
       | Raise e =>
           o = None /\ heap w' = heap w
           /\ exists printed, console w' = console w ++ printed ++ [Traceback e]
       | Ret None => o = None /\ heap w' = heap w
       | Ret (Some df) => o = Some (length (heap w)) /\ heap w' = heap w ++ [df]
       end.
Proof.
  unfold fetch_table_data, try_except, table_get_data, bind, lift, print, print_exc,
    df_len, df_columns, bind, load, alloc, ret.
  destruct (genesis env table_code startyear endyear true "de") as [[df|]|e].
  - cbn. rewrite list_lookup_middle by reflexivity.
    cbn. rewrite list_lookup_middle by reflexivity.
    eexists _, _. split; [reflexivity|]. cbn. auto.
  - eexists _, _. split; [reflexivity|]. cbn. auto.
  - eexists _, _. split; [reflexivity|]. cbn.
    split; [reflexivity|]. split; [reflexivity|]. split; [reflexivity|].
    eexists [_; _; _]. rewrite <- !app_assoc. reflexivity.
Qed.

(** [setup_genesis_credentials] never raises, makes no object and writes at
    most the configuration file. *)
Lemma run_setup_genesis_credentials (username password : option string) (w : World) :
  exists ok w',
    setup_genesis_credentials env username password w = (Ret ok, w')
    /\ heap w' = heap w
    /\ forall path, path <> config_file env -> files w' !! path = files w !! path.
Proof.
  unfold setup_genesis_credentials, try_except, bind, lift, write_file, print, ret.
  fold (config_file env).
  destruct (load_config env) as [c|e]; cbn [heap files with_console with_files];
    [|eexists _, _; split; [reflexivity|]; cbn; auto].
  destruct (truthy username && truthy password).
  - destruct (cfg_set env c "genesis" "username" _) as [c1|e];
      [|eexists _, _; split; [reflexivity|]; cbn; auto].
    destruct (cfg_set env c1 "genesis" "password" _) as [c2|e];
      [|eexists _, _; split; [reflexivity|]; cbn; auto].
    destruct (writable env (config_file env));
      [|eexists _, _; split; [reflexivity|]; cbn; auto].
    cbn [heap files with_console with_files].
    destruct (cfg_get env c2 "genesis" "username") as [u|e];
      [destruct (negb (truthy (Some u)))|];
      (eexists _, _; split; [reflexivity|]; cbn; split; [reflexivity|]);
      intros path Hne; now rewrite lookup_insert_ne.
  - cbn [heap files with_console with_files].
    destruct (cfg_get env c "genesis" "username") as [u|e];
      [destruct (negb (truthy (Some u)))|];
      (eexists _, _; split; [reflexivity|]; cbn; auto).
Qed.

(** What [main] does, from the provider's two answers: it never raises; it
    returns 1 without touching the output file when neither table was
    fetched; otherwise it returns what [combine_and_save_data] reports. *)
Lemma run_main (w : World) :
  let b := fetched (genesis env TABLE_BEHANDLUNGSORT "2005" "2024" true "de") in
  let wo := fetched (genesis env TABLE_WOHNORT "2005" "2024" true "de") in
  exists code w',
    main env w = (Ret code, w')
    /\ match combined b wo with
       | None =>
           code = 1%Z
           /\ (forall path, path <> config_file env -> files w' !! path = files w !! path)
           /\ exists printed,
               console w' = printed ++ [Print "\n{}" [PStr banner];
                                        Print "✗ Failed to fetch data from Genesis tables" [];
                                        Print "{}" [PStr banner]]
       | Some df =>
           code = (if can_save env OUTPUT_FILE df && summary_ok env (final_frame df)
                   then 0%Z else 1%Z)
           /\ files w' !! OUTPUT_FILE
              = (if can_save env OUTPUT_FILE df
                 then Some (to_csv env (final_frame df))
                 else files w !! OUTPUT_FILE)
       end.
Proof.
  intros b wo. unfold main. cbv zeta. rewrite !bind_print.
  match goal with |- context [bind (if ?c then ?m else ret tt) ?k ?w0] =>
    destruct (run_if_then c m w0) as (w1 & Hrun1 & [Hh1 Hf1]);
      [eexists; split; [rewrite !bind_print; reflexivity | now split]
      | rewrite (bind_Ret _ _ _ _ _ Hrun1); clear Hrun1]
  end.
  cbn [heap files with_console] in Hh1, Hf1.
  destruct (run_setup_genesis_credentials (environ env "GENESIS_USERNAME")
              (environ env "GENESIS_PASSWORD") w1) as (ok & w2 & Hrun2 & Hh2 & Hf2).
  rewrite (bind_Ret _ _ _ _ _ Hrun2); clear Hrun2.
  match goal with |- context [bind (if ?c then ?m else ret tt) ?k ?w0] =>
    destruct (run_if_then c m w0) as (w3 & Hrun3 & [Hh3 Hf3]);
      [eexists; split; [reflexivity | now split]
      | rewrite (bind_Ret _ _ _ _ _ Hrun3); clear Hrun3]
  end.
  rewrite !bind_print.
  match goal with |- context [bind (fetch_table_data _ _ _ _) _ ?w0] => set (w4 := w0) end.
  destruct (run_fetch_table_data TABLE_BEHANDLUNGSORT "2005" "2024" w4)
    as (o1 & w5 & Hrun5 & Hf5 & Hspec5).
  unfold TABLE_BEHANDLUNGSORT in Hrun5. rewrite (bind_Ret _ _ _ _ _ Hrun5); clear Hrun5.
  destruct (run_fetch_table_data TABLE_WOHNORT "2005" "2024" w5)
    as (o2 & w6 & Hrun6 & Hf6 & Hspec6).
  unfold TABLE_WOHNORT in Hrun6. rewrite (bind_Ret _ _ _ _ _ Hrun6); clear Hrun6.
  assert (Hfiles : forall path, path <> config_file env -> files w6 !! path = files w !! path).
  { intros path Hne. rewrite Hf6, Hf5. change (files w4) with (files w3).
    rewrite Hf3, (Hf2 path Hne), Hf1. reflexivity. }
  assert (Hb : holds w6 o1 b /\ (b = None -> o1 = None)).
  { subst b. destruct (genesis env TABLE_BEHANDLUNGSORT "2005" "2024" true "de")
      as [[df|]|e]; simpl.
    - destruct Hspec5 as [-> Hh5]. split; [|discriminate]. simpl.
      assert (Hpre : heap w5 `prefix_of` heap w6).
      { destruct (genesis env TABLE_WOHNORT "2005" "2024" true "de") as [[df'|]|e'];
          [destruct Hspec6 as [_ ->] | destruct Hspec6 as [_ ->]
          | destruct Hspec6 as (_ & -> & _)]; try reflexivity.
        now apply prefix_app_r. }
      eapply prefix_lookup_Some; [|exact Hpre].
      rewrite Hh5. rewrite list_lookup_middle by reflexivity. reflexivity.
    - destruct Hspec5 as [-> _]. simpl. auto.
    - destruct Hspec5 as (-> & _). simpl. auto. }
  assert (Hw : holds w6 o2 wo /\ (wo = None -> o2 = None)).
  { subst wo. destruct (genesis env TABLE_WOHNORT "2005" "2024" true "de")
      as [[df|]|e]; simpl.
    - destruct Hspec6 as [-> Hh6]. split; [|discriminate]. simpl.
      rewrite Hh6. rewrite list_lookup_middle by reflexivity. reflexivity.
    - destruct Hspec6 as [-> _]. simpl. auto.
    - destruct Hspec6 as (-> & _). simpl. auto. }
  clear Hspec5 Hspec6. destruct Hb as [Hb Hbn], Hw as [Hw Hwn].
  destruct (combined b wo) as [df|] eqn:Hcomb.
  - assert (Hcond : bool_decide (o1 <> None) || bool_decide (o2 <> None) = true).
    { destruct b, wo, o1, o2; simpl in *; try contradiction; try discriminate; reflexivity. }
    rewrite Hcond, !bind_print.
    match goal with |- context [bind (combine_and_save_data _ _ _ _) _ ?w0] => set (w7 := w0) end.
    destruct (run_combine_and_save_data o1 o2 b wo "GAC_Daten_Roh.csv" w7 Hb Hw)
      as (r & w8 & Hrun8 & _ & Hspec8).
    rewrite (bind_Ret _ _ _ _ _ Hrun8); clear Hrun8.
    rewrite Hcomb in Hspec8. destruct Hspec8 as (_ & Hf8 & Hr).
    fold OUTPUT_FILE in Hf8, Hr. change (files w7) with (files w6) in Hf8.
    assert (Hout : files w8 !! OUTPUT_FILE
                   = (if can_save env OUTPUT_FILE df
                      then Some (to_csv env (final_frame df))
                      else files w !! OUTPUT_FILE)).
    { rewrite Hf8. destruct (can_save env OUTPUT_FILE df).
      - apply lookup_insert_eq.
      - apply Hfiles. intros Heq. symmetry in Heq. now apply path_join_config_ini in Heq. }
    rewrite <- Hr. destruct r; cbv iota; rewrite !bind_print; eexists _, _;
      (split; [reflexivity|]); (split; [reflexivity | exact Hout]).
  - assert (Hnone : b = None /\ wo = None) by (destruct b, wo; simpl in Hcomb; now try discriminate).
    destruct Hnone as [Hbe Hwe]. rewrite (Hbn Hbe), (Hwn Hwe).
    rewrite bool_decide_eq_false_2 by (intros Hn; now apply Hn).
    cbn [orb]. rewrite !bind_print.
    eexists _, _. split; [reflexivity|]. split; [reflexivity|]. split; [exact Hfiles|].
    exists (console w6). cbn. now rewrite <- !app_assoc.
Qed.

End Runs.

(** * The claims *)

Lemma wfb_wf (df : DataFrame) : wfb df = true -> wf df.
Proof.
  unfold wfb, wf. intros Hb. apply andb_true_iff in Hb as [Hnd Hrows].
  split; [now apply bool_decide_eq_true in Hnd|].
  apply Forall_forall. intros r Hin. rewrite forallb_forall in Hrows.
  apply Nat.eqb_eq, Hrows. now apply list_elem_of_In.
Qed.

Lemma saves_combined (env : Env) (out : string) (b w : option DataFrame) (df : DataFrame) :
  combined b w = Some df -> saves env out b w = can_save env out df.
Proof. intros Hc. unfold saves. now rewrite Hc. Qed.

Section Claims.

Context `{Argsort} (env : Env).

(** C1. Called with two tables (frames as pandas hands them out),
    [combine_and_save_data] makes a combined dataset (the last frame it
    creates, the one it hands to [to_csv]) whose row count is the sum of
    the row counts of the two inputs; no row is dropped or merged with
    another.  The call returns, and the output file holds this dataset
    exactly when the sort does not raise and the path can be written;
    otherwise no file changes. *)
Theorem combined_row_count (w : World) (rb rw : ref) (b wo : DataFrame) (out : string) :
  heap w !! rb = Some b -> heap w !! rw = Some wo -> wf b -> wf wo ->
  exists flag w' df,
    combine_and_save_data env (Some rb) (Some rw) out w = (Ret flag, w')
    /\ last (heap w') = Some df
    /\ wf df
    /\ len df = len b + len wo
    /\ files w' = (if saves env out (Some b) (Some wo)
                   then <[out := to_csv env df]> (files w)
                   else files w).
Proof.
  intros Hb Hw Hwfb Hwfw.
  destruct (run_combine_and_save_data env (Some rb) (Some rw) (Some b) (Some wo) out w Hb Hw)
    as (flag & w' & Hrun & _ & Hspec).
  destruct (combined (Some b) (Some wo)) as [df|] eqn:Hc; [|discriminate].
  destruct Hspec as (Hlast & Hfiles & _).
  exists flag, w', (final_frame df). split; [exact Hrun|]. split; [exact Hlast|].
  split; [|split].
  - apply wf_final_frame. exact (wf_combined (Some b) (Some wo) df Hwfb Hwfw Hc).
  - rewrite len_final_frame. apply (len_combined _ _ _ Hc).
  - unfold saves. rewrite Hc. exact Hfiles.
Qed.

(** C9. [combine_and_save_data] leaves its inputs as they were: the tag
    column goes to copies, so after the call each input reference still
    stands for the frame it stood for before, and so does every other
    object that existed before the call. *)
Theorem inputs_unchanged (w : World) (ob ow : option ref) (b wo : option DataFrame)
    (out : string) :
  holds w ob b -> holds w ow wo ->
  exists flag w',
    combine_and_save_data env ob ow out w = (Ret flag, w')
    /\ holds w' ob b /\ holds w' ow wo
    /\ forall r df, heap w !! r = Some df -> heap w' !! r = Some df.
Proof.
  intros Hb Hw.
  destruct (run_combine_and_save_data env ob ow b wo out w Hb Hw)
    as (flag & w' & Hrun & Hpre & _).
  exists flag, w'. split; [exact Hrun|].
  split; [now apply (holds_prefix w)|]. split; [now apply (holds_prefix w)|].
  intros r df Hr. eapply prefix_lookup_Some; eassumption.
Qed.

(** C10. When the combined dataset of two inputs has no column 'Jahr',
    nothing is sorted: the dataset handed to [to_csv] is the concatenation
    itself, the rows of the treatment-location table in their order,
    tagged, followed by the rows of the residence-location table in their
    order, tagged.  The file is written whenever the path can be
    written. *)
Theorem unsorted_keeps_concatenation_order (w : World) (rb rw : ref) (b wo : DataFrame)
    (out : string) (combined_data : DataFrame) :
  heap w !! rb = Some b -> heap w !! rw = Some wo -> wf b -> wf wo ->
  combined (Some b) (Some wo) = Some combined_data ->
  has_column JAHR combined_data = false ->
  exists flag w' rows_b rows_w,
    combine_and_save_data env (Some rb) (Some rw) out w = (Ret flag, w')
    /\ last (heap w') = Some combined_data
    /\ files w' = (if writable env out
                   then <[out := to_csv env combined_data]> (files w)
                   else files w)
    /\ rows combined_data = rows_b ++ rows_w
    /\ Forall2 (tagged TAG_BEHANDLUNGSORT (columns b) (columns combined_data))
               (rows b) rows_b
    /\ Forall2 (tagged TAG_WOHNORT (columns wo) (columns combined_data))
               (rows wo) rows_w.
Proof.
  intros Hb Hw Hwfb Hwfw Hc Hj.
  destruct (run_combine_and_save_data env (Some rb) (Some rw) (Some b) (Some wo) out w Hb Hw)
    as (flag & w' & Hrun & _ & Hspec).
  rewrite Hc in Hspec. destruct Hspec as (Hlast & Hfiles & _).
  rewrite (final_frame_unsorted _ Hj) in Hlast, Hfiles.
  destruct (rows_combined (Some b) (Some wo) _ Hwfb Hwfw Hc)
    as (rows_b & rows_w & Hrows & Hfb & Hfw).
  exists flag, w', rows_b, rows_w.
  split; [exact Hrun|]. split; [exact Hlast|]. split; [|auto].
  unfold can_save, sortable in Hfiles. rewrite Hj in Hfiles. exact Hfiles.
Qed.

(** C4. Every row of the combined dataset carries, in the column
    'Wohnort/Behandlungsort', the tag of the table it came from: the rows
    of the dataset are, in some order, the rows of the treatment-location
    input tagged 'nach Behandlungsort' and the rows of the
    residence-location input tagged 'nach Wohnort', each with the cells it
    had in its table. *)
Theorem rows_tagged_by_origin (w : World) (ob ow : option ref) (b wo : option DataFrame)
    (out : string) :
  holds w ob b -> holds w ow wo -> wf_opt b -> wf_opt wo ->
  is_Some (combined b wo) ->
  exists flag w' df rows_b rows_w,
    combine_and_save_data env ob ow out w = (Ret flag, w')
    /\ last (heap w') = Some df
    /\ files w' = (if saves env out b wo
                   then <[out := to_csv env df]> (files w)
                   else files w)
    /\ TAG ∈ columns df
    /\ rows df ≡ₚ rows_b ++ rows_w
    /\ Forall2 (tagged TAG_BEHANDLUNGSORT (columns_of b) (columns df)) (rows_of b) rows_b
    /\ Forall2 (tagged TAG_WOHNORT (columns_of wo) (columns df)) (rows_of wo) rows_w.
Proof.
  intros Hb Hw Hwfb Hwfw [df Hc].
  destruct (run_combine_and_save_data env ob ow b wo out w Hb Hw)
    as (flag & w' & Hrun & _ & Hspec).
  rewrite Hc in Hspec. destruct Hspec as (Hlast & Hfiles & _).
  destruct (rows_combined b wo df Hwfb Hwfw Hc) as (rows_b & rows_w & Hrows & Hfb & Hfw).
  exists flag, w', (final_frame df), rows_b, rows_w.
  split; [exact Hrun|]. split; [exact Hlast|].
  split; [now rewrite (saves_combined env out b wo df Hc)|].
  rewrite columns_final_frame, rows_final_frame, Hrows.
  split; [|auto].
  apply (has_column_combined b wo df TAG Hc). auto.
Qed.

(** C5. With exactly one input, the dataset handed to [to_csv] holds that
    table's rows and no others: as many rows, each with the cells it had and
    with that table's tag, in the table's order when there is no year column
    to sort by. *)
Theorem single_input (w : World) (ob ow : option ref) (b wo : option DataFrame)
    (out : string) (input : DataFrame) (tag : string) :
  holds w ob b -> holds w ow wo -> wf input ->
  (b = Some input /\ wo = None /\ tag = TAG_BEHANDLUNGSORT)
  \/ (b = None /\ wo = Some input /\ tag = TAG_WOHNORT) ->
  exists flag w' df rs,
    combine_and_save_data env ob ow out w = (Ret flag, w')
    /\ last (heap w') = Some df
    /\ files w' = (if saves env out b wo
                   then <[out := to_csv env df]> (files w)
                   else files w)
    /\ len df = len input
    /\ rows df ≡ₚ rs
    /\ (has_column JAHR input = false -> rows df = rs)
    /\ Forall2 (tagged tag (columns input) (columns df)) (rows input) rs.
Proof.
  intros Hb Hw Hwf Hone.
  destruct (run_combine_and_save_data env ob ow b wo out w Hb Hw)
    as (flag & w' & Hrun & _ & Hspec).
  set (df := setitem TAG (Str tag) input).
  assert (Hc : combined b wo = Some df)
    by (destruct Hone as [(-> & -> & ->) | (-> & -> & ->)]; reflexivity).
  rewrite Hc in Hspec. destruct Hspec as (Hlast & Hfiles & _).
  exists flag, w', (final_frame df), (rows df).
  split; [exact Hrun|]. split; [exact Hlast|].
  split; [now rewrite (saves_combined env out b wo df Hc)|].
  split; [rewrite len_final_frame; apply len_setitem|].
  split; [apply rows_final_frame|].
  rewrite columns_final_frame. split; [|now apply tagged_setitem].
  intros Hj. rewrite final_frame_unsorted; [reflexivity|].
  subst df. rewrite has_column_setitem, Hj. reflexivity.
Qed.

(** C6. When the combined dataset has a column 'Jahr', the dataset handed
    to [to_csv] is the combined dataset sorted by it: the same columns, the
    same rows, and the year column in non-decreasing order (numbers by
    value, strings lexicographically, rows without a year last).  The file
    is written only with such a dataset. *)
Theorem written_sorted_by_year (w : World) (ob ow : option ref) (b wo : option DataFrame)
    (out : string) (combined_data : DataFrame) :
  holds w ob b -> holds w ow wo -> wf_opt b -> wf_opt wo ->
  combined b wo = Some combined_data ->
  has_column JAHR combined_data = true ->
  exists flag w' df,
    combine_and_save_data env ob ow out w = (Ret flag, w')
    /\ last (heap w') = Some df
    /\ wf df
    /\ columns df = columns combined_data
    /\ rows df ≡ₚ rows combined_data
    /\ files w' = (if saves env out b wo
                   then <[out := to_csv env df]> (files w)
                   else files w)
    /\ (saves env out b wo = true -> Sorted cell_le (column JAHR df))
    /\ (comparable (year_keys combined_data) = true -> writable env out = true ->
        saves env out b wo = true).
Proof.
  intros Hb Hw Hwfb Hwfw Hc Hj.
  destruct (run_combine_and_save_data env ob ow b wo out w Hb Hw)
    as (flag & w' & Hrun & _ & Hspec).
  rewrite Hc in Hspec. destruct Hspec as (Hlast & Hfiles & _).
  exists flag, w', (final_frame combined_data).
  split; [exact Hrun|]. split; [exact Hlast|].
  split; [apply wf_final_frame; exact (wf_combined b wo _ Hwfb Hwfw Hc)|].
  split; [apply columns_final_frame|]. split; [apply rows_final_frame|].
  rewrite (saves_combined env out b wo _ Hc).
  split; [exact Hfiles|]. split.
  - intros Hs. unfold can_save in Hs. apply andb_true_iff in Hs as [Hs _].
    now apply final_frame_sorted.
  - intros Hcmp Hwr. unfold can_save.
    rewrite (sortable_wf _ (wf_combined b wo _ Hwfb Hwfw Hc)). now rewrite Hj, Hcmp, Hwr.
Qed.

(** C7 (as the code has it). The output file holds CSV text with ';'
    between fields: a header record with the column labels, then one
    record per row of the dataset, each with as many fields as there are
    columns (no index field).  When the labels and the fields are text,
    the bytes of the file are well-formed UTF-8.  Reading the file back
    with the same separator gives the header and the records again, so
    that the row count and the columns of the dataset are recovered,
    provided no label and no field holds a carriage return that the writer
    leaves unquoted. *)
Theorem output_round_trip (w : World) (ob ow : option ref) (b wo : option DataFrame)
    (out : string) :
  holds w ob b -> holds w ow wo -> wf_opt b -> wf_opt wo ->
  is_Some (combined b wo) ->
  exists flag w' df records,
    combine_and_save_data env ob ow out w = (Ret flag, w')
    /\ last (heap w') = Some df
    /\ files w' = (if saves env out b wo
                   then <[out := to_csv env df]> (files w)
                   else files w)
    /\ records = map (render_row env df) (rows df)
    /\ to_csv env df = Csv.writerows (csv_quotes_cr env) (columns df :: records)
    /\ length records = len df
    /\ Forall (fun record => length record = length (columns df)) records
    /\ (Forall (Forall (fun f => Utf8.valid f = true)) (columns df :: records) ->
        exists text, Utf8.decode (to_csv env df) = Some text)
    /\ (Forall (Forall (fun f => Csv.cr_safe (csv_quotes_cr env) f = true))
               (columns df :: records) ->
        CsvReader.reader (to_csv env df) = columns df :: records).
Proof.
  intros Hb Hw Hwfb Hwfw [df Hc].
  destruct (run_combine_and_save_data env ob ow b wo out w Hb Hw)
    as (flag & w' & Hrun & _ & Hspec).
  rewrite Hc in Hspec. destruct Hspec as (Hlast & Hfiles & _).
  exists flag, w', (final_frame df), (map (render_row env (final_frame df)) (rows (final_frame df))).
  split; [exact Hrun|]. split; [exact Hlast|].
  split; [now rewrite (saves_combined env out b wo df Hc)|].
  split; [reflexivity|]. split; [reflexivity|].
  split; [apply length_map|]. split; [|split].
  - destruct (wf_final_frame df (wf_combined b wo df Hwfb Hwfw Hc)) as [_ Hrows].
    rewrite map_fmap. apply Forall_fmap.
    eapply Forall_impl; [exact Hrows|]. intros r Hr. simpl.
    unfold render_row. now rewrite length_imap.
  - intros Htext. apply Utf8Facts.valid_decode.
    now apply Utf8Facts.valid_writerows.
  - intros Hcr. now apply CsvFacts.reader_writerows.
Qed.

(** C3. When neither fetch returns a table (each call raised or left no
    data), [main] reports that it failed to fetch, writes no output file
    and the process exits with code 1; and [combine_and_save_data], given
    no input at all, reports 'No data to save', returns false and touches
    neither objects nor files. *)
Theorem no_data_exit_code (w : World) :
  no_data (genesis env TABLE_BEHANDLUNGSORT "2005" "2024" true "de") = true ->
  no_data (genesis env TABLE_WOHNORT "2005" "2024" true "de") = true ->
  (exists w' printed,
      exit_code env w = (1%Z, w')
      /\ files w' !! OUTPUT_FILE = files w !! OUTPUT_FILE
      /\ (forall path, path <> config_file env -> files w' !! path = files w !! path)
      /\ console w' = printed ++ [Print "\n{}" [PStr banner];
                                  Print "✗ Failed to fetch data from Genesis tables" [];
                                  Print "{}" [PStr banner]])
  /\ (forall w0 out, exists w1,
        combine_and_save_data env None None out w0 = (Ret false, w1)
        /\ heap w1 = heap w0 /\ files w1 = files w0
        /\ last (console w1) = Some (Print "✗ No data to save" [])).
Proof.
  intros Hb Hw. split.
  - destruct (run_main env w) as (code & w' & Hrun & Hspec).
    assert (Hc : combined (fetched (genesis env TABLE_BEHANDLUNGSORT "2005" "2024" true "de"))
                          (fetched (genesis env TABLE_WOHNORT "2005" "2024" true "de")) = None).
    { destruct (genesis env TABLE_BEHANDLUNGSORT "2005" "2024" true "de") as [[?|]|?];
        destruct (genesis env TABLE_WOHNORT "2005" "2024" true "de") as [[?|]|?];
        try discriminate; reflexivity. }
    rewrite Hc in Hspec. destruct Hspec as (-> & Hfiles & printed & Hconsole).
    exists w', printed. unfold exit_code. rewrite Hrun. split; [reflexivity|].
    split; [|split; [exact Hfiles | exact Hconsole]].
    apply Hfiles. intros Heq. symmetry in Heq. now apply path_join_config_ini in Heq.
  - intros w0 out. eexists. split; [reflexivity|]. cbn.
    split; [reflexivity|]. split; [reflexivity|]. apply last_snoc.
Qed.

(** C2 (as the code has it). The exit code of the process is decided by
    the provider's two answers (frames as pandas hands them out): 1 when
    neither fetch returned a table;
    otherwise, with the tables that were fetched, 0 when
    [combine_and_save_data] succeeds (the sort does not raise, the output
    file can be written and the summary does not raise) and 1 when it
    fails.  One failed fetch alone does not make the exit code 1. *)
Theorem exit_code_by_outcome (w : World) :
  wf_opt (fetched (genesis env TABLE_BEHANDLUNGSORT "2005" "2024" true "de")) ->
  wf_opt (fetched (genesis env TABLE_WOHNORT "2005" "2024" true "de")) ->
  (exit_code env w).1
  = match combined (fetched (genesis env TABLE_BEHANDLUNGSORT "2005" "2024" true "de"))
                   (fetched (genesis env TABLE_WOHNORT "2005" "2024" true "de")) with
    | None => 1%Z
    | Some df =>
        if can_save env OUTPUT_FILE df && summary_ok env (final_frame df)
        then 0%Z else 1%Z
    end.
Proof.
  intros _ _.
  destruct (run_main env w) as (code & w' & Hrun & Hspec).
  unfold exit_code. rewrite Hrun. simpl.
  destruct (combined _ _) as [df|]; now destruct Hspec as (-> & _).
Qed.

End Claims.

(** C8. [fetch_table_data] never lets an exception out.  When the
    provider call raises, the exception is caught, its stack trace is the
    last thing printed and the result is [None]; when the provider leaves
    no data the result is [None]; otherwise the result is a reference to
    the provider's table. *)
Theorem fetch_table_data_total (env : Env) (table_code startyear endyear : string)
    (w : World) :
  exists o w',
    fetch_table_data env table_code startyear endyear w = (Ret o, w')
    /\ match genesis env table_code startyear endyear true "de" with
       | Raise e => o = None /\ last (console w') = Some (Traceback e)
       | Ret None => o = None
       | Ret (Some df) => exists r, o = Some r /\ heap w' !! r = Some df
       end.
Proof.
  destruct (run_fetch_table_data env table_code startyear endyear w)
    as (o & w' & Hrun & _ & Hspec).
  exists o, w'. split; [exact Hrun|].
  destruct (genesis env table_code startyear endyear true "de") as [[df|]|e].
  - destruct Hspec as [-> Hh]. eexists. split; [reflexivity|].
    rewrite Hh. now rewrite list_lookup_middle.
  - now destruct Hspec.
  - destruct Hspec as (-> & _ & printed & Hc). split; [reflexivity|].
    rewrite Hc, app_assoc. apply last_snoc.
Qed.

(** ** The claims on the example tables *)

(** A whole run of the script in the example environment: both tables
    arrive, and the output file holds their rows, tagged and sorted by
    year. *)
Example example_run :
  let '(code, w) := exit_code (H := merge_Argsort) example_env empty_world in
  code = 0%Z
  /\ CsvReader.reader <$> files w !! OUTPUT_FILE
     = Some [["Jahr"; "Bundesland"; "Wert"; "Wohnort/Behandlungsort"];
             ["2005"; "Berlin"; "7"; "nach Behandlungsort"];
             ["2005"; "Hessen"; "3"; "nach Wohnort"];
             ["2006"; "Bayern"; "12"; "nach Behandlungsort"]].
Proof. vm_compute. split; reflexivity. Qed.

Lemma combined_row_count_witness :
  exists flag w' df,
    combine_and_save_data (H := merge_Argsort) example_env (Some 0) (Some 1) OUTPUT_FILE
                          example_world = (Ret flag, w')
    /\ last (heap w') = Some df
    /\ len df = 3.
Proof.
  destruct (combined_row_count (H := merge_Argsort) example_env example_world 0 1
              example_behandlungsort example_wohnort OUTPUT_FILE)
    as (flag & w' & df & Hrun & Hlast & _ & Hlen & _);
    [reflexivity | reflexivity | apply wfb_wf; reflexivity | apply wfb_wf; reflexivity |].
  exists flag, w', df. auto.
Defined.

Lemma inputs_unchanged_witness :
  exists flag w',
    combine_and_save_data (H := merge_Argsort) example_env (Some 0) (Some 1) OUTPUT_FILE
                          example_world = (Ret flag, w')
    /\ heap w' !! 0 = Some example_behandlungsort
    /\ heap w' !! 1 = Some example_wohnort.
Proof.
  destruct (inputs_unchanged (H := merge_Argsort) example_env example_world
              (Some 0) (Some 1) (Some example_behandlungsort) (Some example_wohnort)
              OUTPUT_FILE)
    as (flag & w' & Hrun & Hb & Hw & _); [reflexivity | reflexivity |].
  exists flag, w'. auto.
Defined.

Lemma unsorted_keeps_concatenation_order_witness :
  exists flag w' df rows_b rows_w,
    combine_and_save_data (H := merge_Argsort) example_env (Some 0) (Some 1) OUTPUT_FILE
                          example_world_states = (Ret flag, w')
    /\ files w' !! OUTPUT_FILE = Some (to_csv example_env df)
    /\ rows df = rows_b ++ rows_w
    /\ length rows_b = 2 /\ length rows_w = 1.
Proof.
  destruct (unsorted_keeps_concatenation_order (H := merge_Argsort) example_env
              example_world_states 0 1
              example_states_behandlungsort example_states_wohnort OUTPUT_FILE
              (concat (setitem TAG (Str TAG_BEHANDLUNGSORT) example_states_behandlungsort)
                      (setitem TAG (Str TAG_WOHNORT) example_states_wohnort)))
    as (flag & w' & rows_b & rows_w & Hrun & _ & Hfiles & Hrows & Hb & Hw);
    [reflexivity | reflexivity | apply wfb_wf; reflexivity | apply wfb_wf; reflexivity
    | reflexivity | reflexivity |].
  eexists flag, w', _, rows_b, rows_w. split; [exact Hrun|].
  split; [rewrite Hfiles; apply lookup_insert_eq|]. split; [exact Hrows|].
  apply Forall2_length in Hb, Hw. auto.
Defined.

Lemma rows_tagged_by_origin_witness :
  exists flag w' df rows_b rows_w,
    combine_and_save_data (H := merge_Argsort) example_env (Some 0) (Some 1) OUTPUT_FILE
                          example_world = (Ret flag, w')
    /\ last (heap w') = Some df
    /\ rows df ≡ₚ rows_b ++ rows_w
    /\ Forall (fun r => cell_at (columns df) TAG r = Str TAG_BEHANDLUNGSORT) rows_b
    /\ Forall (fun r => cell_at (columns df) TAG r = Str TAG_WOHNORT) rows_w.
Proof.
  destruct (rows_tagged_by_origin (H := merge_Argsort) example_env example_world
              (Some 0) (Some 1) (Some example_behandlungsort) (Some example_wohnort)
              OUTPUT_FILE)
    as (flag & w' & df & rows_b & rows_w & Hrun & Hlast & _ & _ & Hperm & Hb & Hw);
    [reflexivity | reflexivity | apply wfb_wf; reflexivity | apply wfb_wf; reflexivity
    | eexists; reflexivity |].
  exists flag, w', df, rows_b, rows_w. split; [exact Hrun|]. split; [exact Hlast|].
  split; [exact Hperm|].
  split; [eapply Forall2_Forall_r; [exact Hb|] | eapply Forall2_Forall_r; [exact Hw|]];
    apply Forall_forall; intros r _ r' Hr; apply (Hr TAG).
Defined.

Lemma single_input_witness :
  exists flag w' df,
    combine_and_save_data (H := merge_Argsort) example_env None (Some 1) OUTPUT_FILE
                          example_world = (Ret flag, w')
    /\ last (heap w') = Some df
    /\ len df = 1.
Proof.
  destruct (single_input (H := merge_Argsort) example_env example_world
              None (Some 1) None (Some example_wohnort) OUTPUT_FILE
              example_wohnort TAG_WOHNORT)
    as (flag & w' & df & rs & Hrun & Hlast & _ & Hlen & _);
    [exact I | reflexivity | apply wfb_wf; reflexivity
    | right; repeat split |].
  exists flag, w', df. auto.
Defined.

Lemma written_sorted_by_year_witness :
  exists flag w' df,
    combine_and_save_data (H := merge_Argsort) example_env (Some 0) (Some 1) OUTPUT_FILE
                          example_world = (Ret flag, w')
    /\ files w' !! OUTPUT_FILE = Some (to_csv example_env df)
    /\ Sorted cell_le (column JAHR df).
Proof.
  destruct (written_sorted_by_year (H := merge_Argsort) example_env example_world
              (Some 0) (Some 1) (Some example_behandlungsort) (Some example_wohnort)
              OUTPUT_FILE
              (concat (setitem TAG (Str TAG_BEHANDLUNGSORT) example_behandlungsort)
                      (setitem TAG (Str TAG_WOHNORT) example_wohnort)))
    as (flag & w' & df & Hrun & _ & _ & _ & _ & Hfiles & Hsorted & Hsaves);
    [reflexivity | reflexivity | apply wfb_wf; reflexivity | apply wfb_wf; reflexivity
    | reflexivity | reflexivity |].
  exists flag, w', df. split; [exact Hrun|].
  rewrite Hfiles, (Hsaves eq_refl eq_refl).
  split; [apply lookup_insert_eq | apply Hsorted, Hsaves; reflexivity].
Defined.

Lemma output_round_trip_witness :
  exists flag w' df records text,
    combine_and_save_data (H := merge_Argsort) example_env (Some 0) (Some 1) OUTPUT_FILE
                          example_world = (Ret flag, w')
    /\ files w' !! OUTPUT_FILE = Some (to_csv example_env df)
    /\ Utf8.decode (to_csv example_env df) = Some text
    /\ CsvReader.reader (to_csv example_env df) = columns df :: records
    /\ length records = len df.
Proof.
  destruct (output_round_trip (H := merge_Argsort) example_env example_world
              (Some 0) (Some 1) (Some example_behandlungsort) (Some example_wohnort)
              OUTPUT_FILE)
    as (flag & w' & df & records & Hrun & Hlast & Hfiles & Hrecords & _ & Hlen & _
        & Htext & Hread);
    [reflexivity | reflexivity | apply wfb_wf; reflexivity | apply wfb_wf; reflexivity
    | eexists; reflexivity |].
  assert (Hdf : df = {| columns := ["Jahr"; "Bundesland"; "Wert"; TAG];
                        rows := [[Num 2005; Str "Berlin"; Num 7; Str TAG_BEHANDLUNGSORT];
                                 [Num 2005; Str "Hessen"; Num 3; Str TAG_WOHNORT];
                                 [Num 2006; Str "Bayern"; Num 12; Str TAG_BEHANDLUNGSORT]] |}).
  { vm_compute in Hrun. inversion Hrun; subst w'.
    vm_compute in Hlast. now inversion Hlast. }
  destruct Htext as [text Htext].
  { rewrite Hrecords, Hdf. vm_compute. repeat constructor. }
  exists flag, w', df, records, text. split; [exact Hrun|].
  split; [rewrite Hfiles; apply lookup_insert_eq|]. split; [exact Htext|].
  split; [|exact Hlen].
  apply Hread. rewrite Hrecords, Hdf. vm_compute. repeat constructor.
Defined.

(** C7 as the specification states it fails: a place name with a carriage
    return is written without quotes by a writer that passes over carriage
    returns, and the one row of the table reads back as two records. *)
Lemma round_trip_fails_on_carriage_return :
  exists w' df text,
    combine_and_save_data (H := merge_Argsort) example_env (Some 0) None OUTPUT_FILE
                          example_world_spa = (Ret true, w')
    /\ last (heap w') = Some df
    /\ files w' !! OUTPUT_FILE = Some text
    /\ len df = 1
    /\ CsvReader.reader text
       = [["Jahr"; "Ort"; "Wohnort/Behandlungsort"];
          ["2005"; "Bad"];
          ["Ems"; "nach Behandlungsort"]]
    /\ ~ (exists records,
            CsvReader.reader text = columns df :: records /\ length records = len df).
Proof.
  eexists _, _, _. split; [vm_compute; reflexivity|].
  split; [vm_compute; reflexivity|]. split; [vm_compute; reflexivity|].
  split; [reflexivity|]. split; [vm_compute; reflexivity|].
  intros (records & Hread & Hlen). vm_compute in Hread.
  inversion Hread; subst records. discriminate.
Qed.

Lemma no_data_exit_code_witness :
  (exit_code (H := merge_Argsort) example_env_no_data empty_world).1 = 1%Z.
Proof.
  destruct (no_data_exit_code (H := merge_Argsort) example_env_no_data empty_world)
    as [(w' & printed & Hrun & _) _]; [reflexivity | reflexivity |].
  now rewrite Hrun.
Defined.

Lemma exit_code_by_outcome_witness :
  (exit_code (H := merge_Argsort) example_env empty_world).1 = 0%Z.
Proof.
  rewrite (exit_code_by_outcome (H := merge_Argsort) example_env empty_world);
    [reflexivity | apply wfb_wf; reflexivity | apply wfb_wf; reflexivity].
Defined.

(** C2 as the specification states it fails: with the first request
    failing and the second table arriving, the process exits with code 0. *)
Lemma exit_code_zero_after_one_failed_fetch :
  ~ (no_data (genesis example_env_one_failure TABLE_BEHANDLUNGSORT "2005" "2024" true "de") = true
     \/ no_data (genesis example_env_one_failure TABLE_WOHNORT "2005" "2024" true "de") = true ->
     (exit_code (H := merge_Argsort) example_env_one_failure empty_world).1 = 1%Z).
Proof.
  intros Hclaim.
  assert (Hcode : (exit_code (H := merge_Argsort) example_env_one_failure empty_world).1 = 0%Z)
    by (vm_compute; reflexivity).
  rewrite Hclaim in Hcode; [discriminate | left; reflexivity].
Qed.

(** * Further properties *)

(** ** Which files a program can write *)

Lemma writes_only_same_files {A : Type} (paths : list string) (m : M A) :
  (forall w, files (m w).2 = files w) -> writes_only paths m.
Proof. intros Hm w path _. now rewrite Hm. Qed.

Lemma writes_only_ret {A : Type} (paths : list string) (a : A) :
  writes_only paths (ret a).
Proof. now apply writes_only_same_files. Qed.

Lemma writes_only_lift {A : Type} (paths : list string) (r : result A) :
  writes_only paths (lift r).
Proof. now apply writes_only_same_files. Qed.

Lemma writes_only_print (paths : list string) (fmt : string) (args : list pyval) :
  writes_only paths (print fmt args).
Proof. now apply writes_only_same_files. Qed.

Lemma writes_only_print_exc (paths : list string) (e : exn) :
  writes_only paths (print_exc e).
Proof. now apply writes_only_same_files. Qed.

Lemma writes_only_alloc (paths : list string) (df : DataFrame) :
  writes_only paths (alloc df).
Proof. now apply writes_only_same_files. Qed.

Lemma writes_only_store (paths : list string) (r : ref) (df : DataFrame) :
  writes_only paths (store r df).
Proof. now apply writes_only_same_files. Qed.

Lemma writes_only_load (paths : list string) (r : ref) :
  writes_only paths (load r).
Proof.
  apply writes_only_same_files. intros w. unfold load. now destruct (heap w !! r).
Qed.

Lemma writes_only_write_file (env : Env) (paths : list string) (path text : string) :
  path ∈ paths -> writes_only paths (write_file env path text).
Proof.
  intros Hin w other Hother. unfold write_file.
  destruct (writable env path); [|reflexivity].
  simpl. apply lookup_insert_ne. intros ->. contradiction.
Qed.

Lemma writes_only_bind {A B : Type} (paths : list string) (m : M A) (k : A -> M B) :
  writes_only paths m -> (forall a, writes_only paths (k a)) ->
  writes_only paths (bind m k).
Proof.
  intros Hm Hk w path Hpath. unfold bind.
  specialize (Hm w path Hpath). destruct (m w) as [[a|e] w1]; simpl in *.
  - now rewrite (Hk a w1 path Hpath).
  - exact Hm.
Qed.

Lemma writes_only_try_except {A : Type} (paths : list string) (m : M A) (h : exn -> M A) :
  writes_only paths m -> (forall e, writes_only paths (h e)) ->
  writes_only paths (try_except m h).
Proof.
  intros Hm Hh w path Hpath. unfold try_except.
  specialize (Hm w path Hpath). destruct (m w) as [[a|e] w1]; simpl in *.
  - exact Hm.
  - now rewrite (Hh e w1 path Hpath).
Qed.

(** One step of a footprint proof: the shape of the program decides the
    lemma. *)
Ltac footprint_step :=
  match goal with
  | |- writes_only _ (bind _ _) => apply writes_only_bind; [|intros ?]
  | |- writes_only _ (try_except _ _) => apply writes_only_try_except; [|intros ?]
  | |- writes_only _ (ret _) => apply writes_only_ret
  | |- writes_only _ (lift _) => apply writes_only_lift
  | |- writes_only _ (print _ _) => apply writes_only_print
  | |- writes_only _ (print_exc _) => apply writes_only_print_exc
  | |- writes_only _ (alloc _) => apply writes_only_alloc
  | |- writes_only _ (store _ _) => apply writes_only_store
  | |- writes_only _ (load _) => apply writes_only_load
  | |- writes_only _ (write_file _ _ _) => apply writes_only_write_file; set_solver
  | |- writes_only _ (if ?c then _ else _) => destruct c
  | |- writes_only _ (match ?o with Some _ => _ | None => _ end) => destruct o
  end.

Ltac footprint := repeat footprint_step.

Section Footprints.

Context `{Argsort} (env : Env).

Lemma writes_only_sort_and_save (paths : list string) (c : ref) (out : string) :
  out ∈ paths -> writes_only paths (sort_and_save env c out).
Proof.
  intros Hout.
  unfold sort_and_save, print_summary, print_nunique, df_sort_values, df_to_csv,
    df_has_column, df_column, df_len, df_columns.
  footprint.
Qed.

Lemma writes_only_combine_and_save_data (paths : list string) (ob ow : option ref)
    (out : string) :
  out ∈ paths -> writes_only paths (combine_and_save_data env ob ow out).
Proof.
  intros Hout.
  unfold combine_and_save_data, tag_input, pd_concat, copy, df_setitem, df_len.
  repeat first [apply writes_only_sort_and_save; exact Hout | footprint_step].
Qed.

End Footprints.

(** ** Credential setup *)

Section Setup.

Context (env : Env).

(** X1. [setup_genesis_credentials] never raises, whatever the
    configuration module does; it makes no object, and the only file it can
    change is the configuration file, which is never the output file of the
    script. *)
Theorem setup_genesis_credentials_contained (username password : option string)
    (w : World) :
  exists ok w',
    setup_genesis_credentials env username password w = (Ret ok, w')
    /\ heap w' = heap w
    /\ files w' !! OUTPUT_FILE = files w !! OUTPUT_FILE
    /\ forall path, path <> config_file env -> files w' !! path = files w !! path.
Proof.
  destruct (run_setup_genesis_credentials env username password w)
    as (ok & w' & Hrun & Hheap & Hfiles).
  exists ok, w'. split; [exact Hrun|]. split; [exact Hheap|]. split; [|exact Hfiles].
  apply Hfiles. intros Heq. symmetry in Heq. now apply path_join_config_ini in Heq.
Qed.

(** X2. Without both credentials (one is unset or empty) nothing is
    written at all, not even the configuration file: the stored
    configuration is used as it is, and the result says whether it loads
    and holds a non-empty user name. *)
Theorem setup_without_credentials (username password : option string) (w : World) :
  truthy username && truthy password = false ->
  exists ok w',
    setup_genesis_credentials env username password w = (Ret ok, w')
    /\ files w' = files w
    /\ ok = match load_config env with
            | Ret c =>
                match cfg_get env c "genesis" "username" with
                | Ret u => truthy (Some u)
                | Raise _ => false
                end
            | Raise _ => false
            end.
Proof.
  intros Hcred.
  unfold setup_genesis_credentials, try_except, bind, lift, print, ret.
  rewrite Hcred.
  destruct (load_config env) as [c|e]; cbn [heap files with_console];
    [|eexists _, _; split; [reflexivity|]; cbn; auto].
  destruct (cfg_get env c "genesis" "username") as [u|e];
    [destruct (truthy (Some u)) eqn:Hu|];
    cbn [negb]; eexists _, _; (split; [reflexivity|]); cbn; auto.
Qed.

(** X3. When [setup_genesis_credentials] returns true, a non-empty user
    name was read from the configuration it ends with.  With both
    credentials given, that configuration is the loaded one with user name
    and password set, and the configuration file holds it; otherwise it is
    the loaded configuration and no file changed. *)
Theorem setup_success (username password : option string) (w w' : World) :
  setup_genesis_credentials env username password w = (Ret true, w') ->
  exists c u,
    cfg_get env c "genesis" "username" = Ret u
    /\ u <> EmptyString
    /\ heap w' = heap w
    /\ if truthy username && truthy password then
         exists c0 c1,
           load_config env = Ret c0
           /\ cfg_set env c0 "genesis" "username" (default EmptyString username) = Ret c1
           /\ cfg_set env c1 "genesis" "password" (default EmptyString password) = Ret c
           /\ writable env (config_file env) = true
           /\ files w' = <[config_file env := cfg_write env c]> (files w)
       else load_config env = Ret c /\ files w' = files w.
Proof.
  unfold setup_genesis_credentials, try_except, bind, lift, write_file, print, ret.
  fold (config_file env).
  destruct (load_config env) as [c0|e]; cbn [heap files with_console with_files];
    [|intros Hrun; inversion Hrun].
  assert (Huser : forall u, negb (truthy (Some u)) = false -> u <> EmptyString).
  { intros u Hu ->. discriminate. }
  destruct (truthy username && truthy password).
  - destruct (cfg_set env c0 "genesis" "username" _) as [c1|e] eqn:Hset1;
      [|intros Hrun; inversion Hrun].
    destruct (cfg_set env c1 "genesis" "password" _) as [c2|e] eqn:Hset2;
      [|intros Hrun; inversion Hrun].
    destruct (writable env (config_file env)) eqn:Hwr;
      [|intros Hrun; inversion Hrun].
    cbn [heap files with_console with_files].
    destruct (cfg_get env c2 "genesis" "username") as [u|e] eqn:Hget;
      [destruct (negb (truthy (Some u))) eqn:Hu|];
      intros Hrun; inversion Hrun; subst w'.
    exists c2, u. split; [exact Hget|]. split; [now apply Huser|].
    split; [reflexivity|]. exists c0, c1. auto.
  - cbn [heap files with_console with_files].
    destruct (cfg_get env c0 "genesis" "username") as [u|e] eqn:Hget;
      [destruct (negb (truthy (Some u))) eqn:Hu|];
      intros Hrun; inversion Hrun; subst w'.
    exists c0, u. split; [exact Hget|]. split; [now apply Huser|]. auto.
Qed.

End Setup.

Lemma setup_without_credentials_witness :
  exists w',
    setup_genesis_credentials example_env None (Some "secret") empty_world = (Ret true, w')
    /\ files w' = ∅.
Proof.
  destruct (setup_without_credentials example_env None (Some "secret") empty_world)
    as (ok & w' & Hrun & Hfiles & Hok); [reflexivity|].
  exists w'. rewrite Hrun, Hok. auto.
Defined.

Lemma setup_success_witness :
  exists c u,
    cfg_get example_env_credentials c "genesis" "username" = Ret u
    /\ u <> EmptyString
    /\ files (setup_genesis_credentials example_env_credentials (Some "user") (Some "secret")
                                        empty_world).2
       = {[ config_file example_env_credentials := cfg_write example_env_credentials c ]}.
Proof.
  destruct (setup_success example_env_credentials (Some "user") (Some "secret") empty_world _
              eq_refl) as (c & u & Hget & Hu & _ & c0 & c1 & _ & _ & _ & _ & Hfiles).
  exists c, u. split; [exact Hget|]. split; [exact Hu|]. exact Hfiles.
Defined.

(** ** Merging and saving *)

Lemma get_loc_lookup (ls : list string) (i : nat) (l : string) :
  NoDup ls -> ls !! i = Some l -> get_loc l ls = Some i.
Proof.
  revert i. induction ls as [|x ls IH]; intros i Hnd Hi; [discriminate|].
  apply NoDup_cons in Hnd as [Hx Hnd]. destruct i as [|i]; simpl in *.
  - inversion Hi; subst. now rewrite decide_True.
  - rewrite decide_False.
    + now rewrite (IH i Hnd Hi).
    + intros ->. apply Hx. eapply list_elem_of_lookup_2. eassumption.
Qed.

Lemma reindex_same (ls : list string) (r : row) :
  NoDup ls -> length r = length ls -> reindex ls ls r = r.
Proof.
  intros Hnd Hlen. apply list_eq. intros i. unfold reindex.
  rewrite map_fmap, list_lookup_fmap.
  destruct (ls !! i) as [l|] eqn:Hi; simpl.
  - unfold cell_at. rewrite (get_loc_lookup ls i l Hnd Hi).
    destruct (lookup_lt_is_Some_2 r i) as [c Hc].
    { rewrite Hlen. now apply lookup_lt_Some in Hi. }
    now rewrite Hc.
  - symmetry. apply lookup_ge_None. rewrite Hlen. now apply lookup_ge_None.
Qed.

Lemma list_difference_same (ls : list string) : list_difference ls ls = [].
Proof.
  destruct (list_difference ls ls) as [|x xs] eqn:E; [reflexivity|].
  assert (Hx : x ∈ list_difference ls ls) by (rewrite E; left).
  apply list_elem_of_difference in Hx. tauto.
Qed.

Lemma concat_same_columns (a b : DataFrame) :
  wf a -> wf b -> columns a = columns b ->
  concat a b = {| columns := columns a; rows := rows a ++ rows b |}.
Proof.
  intros [Hna Hra] [Hnb Hrb] Hcols. unfold concat.
  rewrite <- Hcols, list_difference_same, app_nil_r. f_equal. f_equal.
  - rewrite <- (map_id (rows a)) at 2. apply map_ext_Forall.
    eapply Forall_impl; [exact Hra|]. intros r Hr. now apply reindex_same.
  - rewrite <- (map_id (rows b)) at 2. apply map_ext_Forall.
    rewrite <- Hcols in Hrb.
    eapply Forall_impl; [exact Hrb|]. intros r Hr. now apply reindex_same.
Qed.

Lemma setitem_new_column (l : string) (v : cell) (df : DataFrame) :
  l ∉ columns df ->
  setitem l v df = {| columns := columns df ++ [l]; rows := map (fun r => r ++ [v]) (rows df) |}.
Proof. intros Hl. unfold setitem. apply has_column_false in Hl. now rewrite Hl. Qed.

Lemma filter_all {A : Type} (f : A -> bool) (l : list A) :
  Forall (fun x => f x = true) l -> List.filter f l = l.
Proof. induction 1 as [|x l Hx _ IH]; simpl; [reflexivity | now rewrite Hx, IH]. Qed.

Lemma filter_none {A : Type} (f : A -> bool) (l : list A) :
  Forall (fun x => f x = false) l -> List.filter f l = [].
Proof. induction 1 as [|x l Hx _ IH]; simpl; [reflexivity | now rewrite Hx]. Qed.

Lemma Sorted_app_l {A : Type} (R : A -> A -> Prop) (l l' : list A) :
  Sorted R (l ++ l') -> Sorted R l.
Proof.
  induction l as [|x l IH]; intros Hs; [constructor|].
  inversion Hs as [|? ? Htail Hhd]; subst. constructor; [now apply IH|].
  destruct l; [constructor|]. inversion Hhd; subst. now constructor.
Qed.

Section Merging.

Context `{Argsort} (env : Env).

(** With a year column whose keys compare, the sorted frame is the rows
    with a year, in sorted order, followed by the rows without one, in the
    order they had. *)
Lemma final_frame_missing_last (df : DataFrame) :
  has_column JAHR df = true -> sortable df = true ->
  exists dated,
    rows (final_frame df)
    = dated ++ List.filter (fun r => isna (cell_at (columns df) JAHR r)) (rows df)
    /\ dated ≡ₚ List.filter (fun r => negb (isna (cell_at (columns df) JAHR r))) (rows df).
Proof.
  intros Hcol Hsort. destruct (sortable_year_column df Hcol Hsort) as [Hone Hcmp].
  unfold final_frame. rewrite Hcol.
  apply has_column_true, get_loc_elem in Hcol as [j Hj].
  unfold sort_values. rewrite Hj, Hone. fold (year_keys df). rewrite Hcmp. simpl.
  eexists. split; [reflexivity|].
  apply take_Permutation. rewrite argsort_perm. unfold year_keys. now rewrite length_map.
Qed.

(** X5. What [combine_and_save_data] returns (on frames as pandas hands
    them out): false without any input; otherwise true exactly when the
    output file was written (the sort did not raise and the path could be
    written) and the summary did not raise afterwards.  A true result means
    that the output file holds the dataset. *)
Theorem combine_and_save_data_result (w : World) (ob ow : option ref)
    (b wo : option DataFrame) (out : string) :
  holds w ob b -> holds w ow wo -> wf_opt b -> wf_opt wo ->
  exists flag w',
    combine_and_save_data env ob ow out w = (Ret flag, w')
    /\ flag = match combined b wo with
              | Some df => can_save env out df && summary_ok env (final_frame df)
              | None => false
              end
    /\ (flag = true ->
        exists df, combined b wo = Some df
                   /\ files w' !! out = Some (to_csv env (final_frame df))).
Proof.
  intros Hb Hw _ _.
  destruct (run_combine_and_save_data env ob ow b wo out w Hb Hw)
    as (flag & w' & Hrun & _ & Hspec).
  exists flag, w'. split; [exact Hrun|].
  destruct (combined b wo) as [df|].
  - destruct Hspec as (_ & Hfiles & Hflag). split; [exact Hflag|].
    intros ->. symmetry in Hflag. apply andb_true_iff in Hflag as [Hsave _].
    exists df. split; [reflexivity|]. rewrite Hfiles, Hsave. apply lookup_insert_eq.
  - destruct Hspec as [-> _]. split; [reflexivity | discriminate].
Qed.

(** X6. The summary is printed inside the [try] block, after the file was
    written: when it raises (on frames as pandas hands them out),
    [combine_and_save_data] returns false although the output file holds
    the dataset. *)
Theorem summary_failure_after_write (w : World) (ob ow : option ref)
    (b wo : option DataFrame) (out : string) (df : DataFrame) :
  holds w ob b -> holds w ow wo -> wf_opt b -> wf_opt wo ->
  combined b wo = Some df ->
  can_save env out df = true ->
  summary_ok env (final_frame df) = false ->
  exists w',
    combine_and_save_data env ob ow out w = (Ret false, w')
    /\ files w' !! out = Some (to_csv env (final_frame df)).
Proof.
  intros Hb Hw _ _ Hc Hsave Hsummary.
  destruct (run_combine_and_save_data env ob ow b wo out w Hb Hw)
    as (flag & w' & Hrun & _ & Hspec).
  rewrite Hc in Hspec. destruct Hspec as (_ & Hfiles & Hflag).
  rewrite Hsave, Hsummary in Hflag. simpl in Hflag. subst flag.
  exists w'. split; [exact Hrun|].
  rewrite Hfiles, Hsave. apply lookup_insert_eq.
Qed.

(** X7. [combine_and_save_data] changes no file but its output file,
    whatever its inputs are and however it ends. *)
Theorem combine_and_save_data_writes_only_output (w : World) (ob ow : option ref)
    (out path : string) :
  path <> out ->
  files (combine_and_save_data env ob ow out w).2 !! path = files w !! path.
Proof.
  intros Hpath. apply (writes_only_combine_and_save_data env [out]).
  - apply elem_of_cons. now left.
  - intros Hin. now apply list_elem_of_singleton in Hin.
Qed.

(** X8. Calling [combine_and_save_data] again with the same inputs
    overwrites the output file with the same text and returns the same
    result: a second run leaves the files as the first run left them. *)
Theorem combine_and_save_data_again (w : World) (ob ow : option ref)
    (b wo : option DataFrame) (out : string) :
  holds w ob b -> holds w ow wo ->
  exists flag w1 w2,
    combine_and_save_data env ob ow out w = (Ret flag, w1)
    /\ combine_and_save_data env ob ow out w1 = (Ret flag, w2)
    /\ files w2 = files w1.
Proof.
  intros Hb Hw.
  destruct (run_combine_and_save_data env ob ow b wo out w Hb Hw)
    as (flag & w1 & Hrun1 & Hpre & Hspec1).
  destruct (run_combine_and_save_data env ob ow b wo out w1)
    as (flag' & w2 & Hrun2 & _ & Hspec2);
    [now apply (holds_prefix w) | now apply (holds_prefix w) |].
  assert (Hsame : flag' = flag /\ files w2 = files w1).
  { destruct (combined b wo) as [df|].
    - destruct Hspec1 as (_ & Hf1 & ->), Hspec2 as (_ & Hf2 & ->).
      split; [reflexivity|]. rewrite Hf2.
      destruct (can_save env out df); [|reflexivity].
      rewrite Hf1. apply insert_insert_eq.
    - destruct Hspec1 as [-> _], Hspec2 as [-> Hf2]. auto. }
  destruct Hsame as [-> Hfiles]. exists flag, w1, w2. auto.
Qed.

(** X9. When the two tables have the same column labels and none of them
    is the tag label, the combined dataset has these labels followed by
    the tag label, and its rows are the rows of the two tables, each with
    its tag appended: no cell is lost and no missing value comes in.
    Without a year column the rows are in this order. *)
Theorem same_labels_append_tag (w : World) (rb rw : ref) (b wo : DataFrame) (out : string) :
  heap w !! rb = Some b -> heap w !! rw = Some wo -> wf b -> wf wo ->
  columns b = columns wo -> TAG ∉ columns b ->
  exists flag w' df,
    combine_and_save_data env (Some rb) (Some rw) out w = (Ret flag, w')
    /\ last (heap w') = Some df
    /\ columns df = columns b ++ [TAG]
    /\ rows df ≡ₚ map (fun r => r ++ [Str TAG_BEHANDLUNGSORT]) (rows b)
                  ++ map (fun r => r ++ [Str TAG_WOHNORT]) (rows wo)
    /\ (has_column JAHR b = false ->
        rows df = map (fun r => r ++ [Str TAG_BEHANDLUNGSORT]) (rows b)
                  ++ map (fun r => r ++ [Str TAG_WOHNORT]) (rows wo)).
Proof.
  intros Hb Hw Hwfb Hwfw Hcols Htag.
  destruct (run_combine_and_save_data env (Some rb) (Some rw) (Some b) (Some wo) out w Hb Hw)
    as (flag & w' & Hrun & _ & Hspec).
  simpl in Hspec. destruct Hspec as (Hlast & _).
  assert (Hdf : concat (setitem TAG (Str TAG_BEHANDLUNGSORT) b)
                       (setitem TAG (Str TAG_WOHNORT) wo)
                = {| columns := columns b ++ [TAG];
                     rows := map (fun r => r ++ [Str TAG_BEHANDLUNGSORT]) (rows b)
                             ++ map (fun r => r ++ [Str TAG_WOHNORT]) (rows wo) |}).
  { rewrite concat_same_columns.
    - rewrite !setitem_new_column by (rewrite <- ?Hcols; exact Htag). reflexivity.
    - now apply wf_setitem.
    - now apply wf_setitem.
    - rewrite !setitem_new_column by (rewrite <- ?Hcols; exact Htag).
      simpl. now rewrite Hcols. }
  rewrite Hdf in Hlast. eexists flag, w', _. split; [exact Hrun|]. split; [exact Hlast|].
  split; [now rewrite columns_final_frame|].
  split; [now rewrite rows_final_frame|].
  intros Hj. rewrite final_frame_unsorted; [reflexivity|].
  apply has_column_false. simpl. apply has_column_false in Hj.
  rewrite elem_of_app, list_elem_of_singleton. intros [?|?]; [tauto | discriminate].
Qed.

(** X10. When only the residence-location table has a column 'Jahr' (with
    a year in every row), the rows of the treatment-location table get no
    year in the combined dataset, and the sort by year moves them behind
    all rows of the residence-location table: the dataset handed to
    [to_csv] is the residence-location rows, sorted, followed by the
    treatment-location rows in the order they had, each row tagged. *)
Theorem table_without_years_last (w : World) (rb rw : ref) (b wo : DataFrame) (out : string) :
  heap w !! rb = Some b -> heap w !! rw = Some wo -> wf b -> wf wo ->
  has_column JAHR b = false -> has_column JAHR wo = true ->
  Forall (fun c => isna c = false) (column JAHR wo) ->
  comparable (column JAHR wo) = true ->
  exists flag w' df dated rows_b rows_w,
    combine_and_save_data env (Some rb) (Some rw) out w = (Ret flag, w')
    /\ last (heap w') = Some df
    /\ files w' = (if writable env out
                   then <[out := to_csv env df]> (files w)
                   else files w)
    /\ rows df = dated ++ rows_b
    /\ Sorted cell_le (map (cell_at (columns df) JAHR) dated)
    /\ Forall2 (tagged TAG_BEHANDLUNGSORT (columns b) (columns df)) (rows b) rows_b
    /\ dated ≡ₚ rows_w
    /\ Forall2 (tagged TAG_WOHNORT (columns wo) (columns df)) (rows wo) rows_w.
Proof.
  intros Hb Hw Hwfb Hwfw Hjb Hjw Hyears Hcmp.
  destruct (run_combine_and_save_data env (Some rb) (Some rw) (Some b) (Some wo) out w Hb Hw)
    as (flag & w' & Hrun & _ & Hspec).
  destruct (combined (Some b) (Some wo)) as [cd|] eqn:Hc; [|discriminate].
  destruct Hspec as (Hlast & Hfiles & _).
  destruct (rows_combined (Some b) (Some wo) cd Hwfb Hwfw Hc)
    as (rows_b & rows_w & Hrows & Hfb & Hfw).
  simpl in Hfb, Hfw.
  set (key := cell_at (columns cd) JAHR).
  assert (Hne : JAHR <> TAG) by discriminate.
  assert (Hkb : Forall (fun r => isna (key r) = true) rows_b).
  { eapply Forall2_Forall_r; [exact Hfb|]. apply Forall_forall. intros r _ r' Htag.
    subst key. cbv beta. rewrite (Htag JAHR), decide_False by exact Hne.
    rewrite cell_at_absent; [reflexivity|]. now apply has_column_false. }
  assert (Hkeys : map key rows_w = column JAHR wo).
  { unfold column. clear -Hfw Hne. subst key.
    induction Hfw as [|r r' rs rs' Htag _ IH]; [reflexivity|].
    simpl. rewrite IH, (Htag JAHR), decide_False by exact Hne. reflexivity. }
  assert (Hkw : Forall (fun r => isna (key r) = false) rows_w).
  { rewrite <- Hkeys in Hyears. now apply Forall_map in Hyears. }
  assert (Hmissing : List.filter (fun r => isna (key r)) (rows cd) = rows_b).
  { rewrite Hrows, List.filter_app, (filter_all _ _ Hkb), (filter_none _ _ Hkw).
    apply app_nil_r. }
  assert (Hpresent : List.filter (fun r => negb (isna (key r))) (rows cd) = rows_w).
  { rewrite Hrows, List.filter_app.
    rewrite (filter_none (fun r => negb (isna (key r))) rows_b),
      (filter_all (fun r => negb (isna (key r))) rows_w); [reflexivity | |].
    - eapply Forall_impl; [exact Hkw|]. intros r ->. reflexivity.
    - eapply Forall_impl; [exact Hkb|]. intros r ->. reflexivity. }
  assert (Hcol : has_column JAHR cd = true).
  { apply has_column_true, (has_column_combined _ _ _ JAHR Hc). right. left.
    now apply has_column_true. }
  assert (Hsort : sortable cd = true).
  { rewrite (sortable_wf _ (wf_combined (Some b) (Some wo) _ Hwfb Hwfw Hc)), Hcol.
    unfold year_keys. fold key. now rewrite Hpresent, Hkeys. }
  destruct (final_frame_missing_last cd Hcol Hsort) as (dated & Hfinal & Hperm).
  fold key in Hfinal, Hperm. rewrite Hmissing in Hfinal. rewrite Hpresent in Hperm.
  destruct (final_frame_sorted cd Hcol Hsort) as [_ Hsorted].
  exists flag, w', (final_frame cd), dated, rows_b, rows_w.
  rewrite columns_final_frame.
  split; [exact Hrun|]. split; [exact Hlast|].
  split; [unfold can_save in Hfiles; now rewrite Hsort in Hfiles|].
  split; [exact Hfinal|]. split; [|auto].
  unfold column in Hsorted. rewrite columns_final_frame, Hfinal, map_app in Hsorted.
  exact (Sorted_app_l _ _ _ Hsorted).
Qed.

End Merging.

(** ** The whole script *)

Section Main.

Context `{Argsort}.


(** X13. The exit code depends on the provider's answers, on whether the
    output file can be written and on the summary only: neither the
    environment variables, nor the configuration module (a failed
    credential setup is not fatal), nor the files and objects present at
    the start change it. *)
Theorem exit_code_ignores_credentials (env env' : Env) (w w' : World) :
  genesis env = genesis env' ->
  writable env OUTPUT_FILE = writable env' OUTPUT_FILE ->
  series_min env = series_min env' ->
  series_max env = series_max env' ->
  (exit_code env w).1 = (exit_code env' w').1.
Proof.
  intros Hg Hw Hmin Hmax.
  destruct (run_main env w) as (code & w1 & Hrun & Hspec).
  destruct (run_main env' w') as (code' & w1' & Hrun' & Hspec').
  unfold exit_code. rewrite Hrun, Hrun'. simpl.
  rewrite <- Hg in Hspec'.
  destruct (combined _ _) as [df|].
  - destruct Hspec as [-> _], Hspec' as [-> _].
    unfold can_save, summary_ok. now rewrite Hw, Hmin, Hmax.
  - destruct Hspec as [-> _], Hspec' as [-> _]. reflexivity.
Qed.

End Main.

(** ** The text of the output *)

(** X14. After [combine_and_save_data] has written the output file,
    reading the file back gives the labels of the dataset as first record
    and then, for every row, a record with one field per cell: a string
    cell reads back as the same string, also when it holds separators,
    quotes or line feeds, and a missing value reads back as the empty
    field.  This is so when no label and no field holds a carriage return
    that the writer leaves unquoted. *)
Theorem output_fields `{Argsort} (env : Env) (w : World) (ob ow : option ref)
    (b wo : option DataFrame) (out : string) (combined_data : DataFrame) :
  holds w ob b -> holds w ow wo -> wf_opt b -> wf_opt wo ->
  combined b wo = Some combined_data ->
  can_save env out combined_data = true ->
  exists flag w' df text,
    combine_and_save_data env ob ow out w = (Ret flag, w')
    /\ last (heap w') = Some df
    /\ files w' !! out = Some text
    /\ (Forall (Forall (fun f => Csv.cr_safe (csv_quotes_cr env) f = true))
               (csv_records env df) ->
        CsvReader.reader text !! 0 = Some (columns df)
        /\ forall i r,
             rows df !! i = Some r ->
             exists record,
               CsvReader.reader text !! S i = Some record
               /\ length record = length r
               /\ forall j,
                    (forall s, r !! j = Some (Str s) -> record !! j = Some s)
                    /\ (r !! j = Some NaN -> record !! j = Some EmptyString)).
Proof.
  intros Hb Hw _ _ Hc Hsave.
  destruct (run_combine_and_save_data env ob ow b wo out w Hb Hw)
    as (flag & w' & Hrun & _ & Hspec).
  rewrite Hc, Hsave in Hspec. destruct Hspec as (Hlast & Hfiles & _).
  exists flag, w', (final_frame combined_data), (to_csv env (final_frame combined_data)).
  split; [exact Hrun|]. split; [exact Hlast|].
  split; [rewrite Hfiles; apply lookup_insert_eq|].
  intros Hcr. unfold to_csv. rewrite (CsvFacts.reader_writerows _ _ Hcr).
  unfold csv_records. split; [reflexivity|].
  intros i r Hr. exists (render_row env (final_frame combined_data) r). split.
  - simpl. now rewrite map_fmap, list_lookup_fmap, Hr.
  - unfold render_row. split; [apply length_imap|].
    intros j. split; [intros s Hj | intros Hj];
      now rewrite list_lookup_imap, Hj.
Qed.

(** ** The further properties on the example tables *)

Lemma combine_and_save_data_result_witness :
  exists w',
    combine_and_save_data (H := merge_Argsort) example_env (Some 0) (Some 1) OUTPUT_FILE
                          example_world = (Ret true, w').
Proof.
  destruct (combine_and_save_data_result (H := merge_Argsort) example_env example_world
              (Some 0) (Some 1) (Some example_behandlungsort) (Some example_wohnort)
              OUTPUT_FILE)
    as (flag & w' & Hrun & Hflag & _);
    [reflexivity | reflexivity | apply wfb_wf; reflexivity | apply wfb_wf; reflexivity |].
  exists w'. rewrite Hrun, Hflag. reflexivity.
Defined.

Lemma summary_failure_after_write_witness :
  exists w' text,
    combine_and_save_data (H := merge_Argsort) example_env (Some 0) (Some 1)
                          OUTPUT_FILE example_world_text_years = (Ret false, w')
    /\ files w' !! OUTPUT_FILE = Some text
    /\ series_min example_env [Str "2005"; Str "2006"; NaN] = Raise TypeError.
Proof.
  destruct (summary_failure_after_write (H := merge_Argsort) example_env
              example_world_text_years (Some 0) (Some 1)
              (Some example_text_years) (Some example_states_wohnort) OUTPUT_FILE
              (concat (setitem TAG (Str TAG_BEHANDLUNGSORT) example_text_years)
                      (setitem TAG (Str TAG_WOHNORT) example_states_wohnort)))
    as (w' & Hrun & Hfiles);
    [reflexivity | reflexivity | apply wfb_wf; reflexivity | apply wfb_wf; reflexivity
    | reflexivity | reflexivity | reflexivity |].
  eexists w', _. split; [exact Hrun|]. split; [exact Hfiles | reflexivity].
Defined.

Lemma combine_and_save_data_writes_only_output_witness :
  files (combine_and_save_data (H := merge_Argsort) example_env (Some 0) (Some 1) OUTPUT_FILE
                               example_world).2 !! "config.ini" = None.
Proof.
  rewrite (combine_and_save_data_writes_only_output (H := merge_Argsort) example_env
             example_world (Some 0) (Some 1) OUTPUT_FILE "config.ini");
    [reflexivity | discriminate].
Defined.

Lemma combine_and_save_data_again_witness :
  exists flag w1 w2,
    combine_and_save_data (H := merge_Argsort) example_env (Some 0) (Some 1) OUTPUT_FILE
                          example_world = (Ret flag, w1)
    /\ combine_and_save_data (H := merge_Argsort) example_env (Some 0) (Some 1) OUTPUT_FILE
                             w1 = (Ret flag, w2)
    /\ files w2 = files w1.
Proof.
  apply (combine_and_save_data_again (H := merge_Argsort) example_env example_world
           (Some 0) (Some 1) (Some example_behandlungsort) (Some example_wohnort)
           OUTPUT_FILE); reflexivity.
Defined.

Lemma same_labels_append_tag_witness :
  exists flag w' df,
    combine_and_save_data (H := merge_Argsort) example_env (Some 0) (Some 1) OUTPUT_FILE
                          example_world_states = (Ret flag, w')
    /\ last (heap w') = Some df
    /\ df = {| columns := ["Bundesland"; "Wert"; TAG];
               rows := [[Str "Bayern"; Num 12; Str TAG_BEHANDLUNGSORT];
                        [Str "Berlin"; Num 7; Str TAG_BEHANDLUNGSORT];
                        [Str "Hessen"; Num 3; Str TAG_WOHNORT]] |}.
Proof.
  destruct (same_labels_append_tag (H := merge_Argsort) example_env example_world_states 0 1
              example_states_behandlungsort example_states_wohnort OUTPUT_FILE)
    as (flag & w' & df & Hrun & Hlast & Hcols & _ & Hrows);
    [reflexivity | reflexivity | apply wfb_wf; reflexivity | apply wfb_wf; reflexivity
    | reflexivity | |].
  - intros Hin. apply has_column_true in Hin. vm_compute in Hin. discriminate.
  - exists flag, w', df. split; [exact Hrun|]. split; [exact Hlast|].
    specialize (Hrows eq_refl). destruct df as [cs rs].
    cbn [columns rows] in Hcols, Hrows. now rewrite Hcols, Hrows.
Defined.

Lemma table_without_years_last_witness :
  exists flag w' df dated rows_b,
    combine_and_save_data (H := merge_Argsort) example_env (Some 0) (Some 1) OUTPUT_FILE
                          example_world_one_dated = (Ret flag, w')
    /\ last (heap w') = Some df
    /\ rows df = [[Str "Hessen"; Num 3; Str TAG_WOHNORT; Num 2005];
                  [Str "Bayern"; Num 12; Str TAG_BEHANDLUNGSORT; NaN];
                  [Str "Berlin"; Num 7; Str TAG_BEHANDLUNGSORT; NaN]]
    /\ rows df = dated ++ rows_b
    /\ length dated = 1 /\ length rows_b = 2.
Proof.
  destruct (table_without_years_last (H := merge_Argsort) example_env example_world_one_dated
              0 1 example_states_behandlungsort example_wohnort OUTPUT_FILE)
    as (flag & w' & df & dated & rows_b & rows_w & Hrun & Hlast & _ & Hrows & _ & Hb
        & Hperm & Hw);
    [reflexivity | reflexivity | apply wfb_wf; reflexivity | apply wfb_wf; reflexivity
    | reflexivity | reflexivity | repeat constructor | reflexivity |].
  exists flag, w', df, dated, rows_b. split; [exact Hrun|]. split; [exact Hlast|].
  split; [|split; [exact Hrows|]].
  - vm_compute in Hrun. inversion Hrun; subst w'.
    vm_compute in Hlast. now inversion Hlast.
  - apply Permutation_length in Hperm. apply Forall2_length in Hb, Hw.
    rewrite Hperm, <- Hw, <- Hb. split; reflexivity.
Defined.


Lemma exit_code_ignores_credentials_witness :
  (exit_code (H := merge_Argsort) example_env empty_world).1
  = (exit_code (H := merge_Argsort) example_env_no_config example_world).1.
Proof.
  apply (exit_code_ignores_credentials (H := merge_Argsort)); reflexivity.
Defined.

Lemma output_fields_witness :
  exists flag w' text record,
    combine_and_save_data (H := merge_Argsort) example_env (Some 0) None OUTPUT_FILE
                          example_world_places = (Ret flag, w')
    /\ files w' !! OUTPUT_FILE = Some text
    /\ CsvReader.reader text !! 1 = Some record
    /\ record !! 1 = Some "Frankfurt; Main".
Proof.
  destruct (output_fields (H := merge_Argsort) example_env example_world_places
              (Some 0) None (Some example_places) None OUTPUT_FILE
              (setitem TAG (Str TAG_BEHANDLUNGSORT) example_places))
    as (flag & w' & df & text & Hrun & Hlast & Hfiles & Hread);
    [reflexivity | exact I | apply wfb_wf; reflexivity | exact I | reflexivity
    | reflexivity |].
  assert (Hdf : df = {| columns := ["Jahr"; "Ort"; TAG];
                        rows := [[Num 2005; Str "Frankfurt; Main"; Str TAG_BEHANDLUNGSORT];
                                 [NaN; Str "Kiel"; Str TAG_BEHANDLUNGSORT]] |}).
  { vm_compute in Hrun. inversion Hrun; subst w'.
    vm_compute in Hlast. now inversion Hlast. }
  destruct Hread as [_ Hrecord].
  { rewrite Hdf. vm_compute. repeat constructor. }
  destruct (Hrecord 0 [Num 2005; Str "Frankfurt; Main"; Str TAG_BEHANDLUNGSORT])
    as (record & Hlookup & _ & Hfields); [now rewrite Hdf|].
  exists flag, w', text, record. split; [exact Hrun|]. split; [exact Hfiles|].
  split; [exact Hlookup|]. now apply (Hfields 1).
Defined.
